(** * AuditMaster: purchase-ledger reconciliation (index.tsx)

    A shallow embedding of the reconciliation core of [src/index.tsx]:
    the normalizers, the row validator [isValidDataRow], the row mapper and
    the engine inside [runAnalysis], the audit handlers of
    [DiscrepancyReport] and the monthly aggregation of [MonthlyStats].

    Conventions of the embedding.
    - A JavaScript string is the list of its UTF-16 code units ([jsstr]),
      so [length] is [.length] and the regular-expression classes [\s] and
      [\d] are predicates on code units.
    - A JavaScript object used as a dictionary ([ParsedRow], the column
      mappings, [auditState]) is a finite map over its own properties;
      inherited properties and the key [__proto__] are not modelled.
    - Numbers are amounts and counts: they are modelled as integers ([Z]),
      which is exact while the values stay inside the safe-integer range of
      a double; [NaN] is [None] where the code can produce it.
    - [String.prototype.toLowerCase], [toUpperCase] and [localeCompare]
      belong to the host; they are operations of the class [JSHost], with
      the part of their standard behaviour the code relies on as laws. *)

From Stdlib Require Import ZArith NArith List Ascii String DecimalString Sorted Permutation Lia.
From Stdlib Require Import DecimalPos DecimalZ.
From stdpp Require Import gmap strings list fin_maps.

Local Open Scope Z_scope.

(** ** Strings as code-unit sequences *)

Abbreviation jsstr := (list N).

(** An ASCII literal as a JavaScript string. *)
Definition js (s : string) : jsstr := N_of_ascii <$> list_ascii_of_string s.

(** [s === t] on strings. *)
Definition streq (s t : jsstr) : bool := bool_decide (s = t).

(** [!s] on a string: only the empty string is falsy. *)
Definition isEmpty (s : jsstr) : bool :=
  match s with [] => true | _ => false end.

(** WhiteSpace and LineTerminator code points: the characters removed by
    [trim] and matched by [\s]. *)
Definition isWhiteSpace (c : N) : bool :=
  ((9 <=? c) && (c <=? 13) || (c =? 32) || (c =? 160) || (c =? 5760)
   || (8192 <=? c) && (c <=? 8202) || (c =? 8232) || (c =? 8233)
   || (c =? 8239) || (c =? 8287) || (c =? 12288) || (c =? 65279))%N.

(** [\d], that is [[0-9]]. *)
Definition isDigit (c : N) : bool := ((48 <=? c) && (c <=? 57))%N.

Fixpoint dropWhile (p : N -> bool) (s : jsstr) : jsstr :=
  match s with
  | c :: s' => if p c then dropWhile p s' else s
  | [] => []
  end.

Definition trimStart (s : jsstr) : jsstr := dropWhile isWhiteSpace s.

Definition trimEnd (s : jsstr) : jsstr := rev (dropWhile isWhiteSpace (rev s)).

(** [s.trim()] *)
Definition trim (s : jsstr) : jsstr := trimEnd (trimStart s).

(** [s.replace(/[class]/g, '')]: every code unit of the class is removed. *)
Definition removeAll (p : N -> bool) (s : jsstr) : jsstr :=
  List.filter (fun c => negb (p c)) s.

Fixpoint startsWith (s t : jsstr) {struct t} : bool :=
  match t, s with
  | [], _ => true
  | b :: t', a :: s' => (a =? b)%N && startsWith s' t'
  | _ :: _, [] => false
  end.

(** [s.includes(t)] *)
Fixpoint includes (s t : jsstr) : bool :=
  startsWith s t ||
  match s with
  | _ :: s' => includes s' t
  | [] => false
  end.

(** [s.replace(pat, rep)] with a string pattern: the first occurrence of
    [pat] is replaced ([rep] holds no [$] here). *)
Fixpoint replaceFirst (pat rep s : jsstr) : jsstr :=
  if startsWith s pat then rep ++ drop (length pat) s
  else match s with
       | c :: s' => c :: replaceFirst pat rep s'
       | [] => []
       end.

(** [s.slice(0, -1)] *)
Definition sliceInit (s : jsstr) : jsstr := take (length s - 1)%nat s.

(** [s.slice(-1)] *)
Definition sliceLast (s : jsstr) : jsstr := drop (length s - 1)%nat s.

(** [s.split(/[class]/)]: the pieces between the separators, one more
    than there are separators. *)
Fixpoint splitPieces (p : N -> bool) (s : jsstr) : jsstr * list jsstr :=
  match s with
  | [] => ([], [])
  | c :: s' =>
      let '(piece, rest) := splitPieces p s' in
      if p c then ([], piece :: rest) else (c :: piece, rest)
  end.

Definition split (p : N -> bool) (s : jsstr) : list jsstr :=
  let '(piece, rest) := splitPieces p s in piece :: rest.

(** ** Numbers *)

(** [n.toString()] for an integer. *)
Definition numberToString (n : Z) : jsstr :=
  js (NilZero.string_of_int (Z.to_int n)).

(** The value of a digit in a radix up to 36. *)
Definition digitValue (c : N) : option Z :=
  if isDigit c then Some (Z.of_N c - 48)
  else if ((97 <=? c) && (c <=? 122))%N then Some (Z.of_N c - 87)
  else if ((65 <=? c) && (c <=? 90))%N then Some (Z.of_N c - 55)
  else None.

(** The longest prefix of digits of the radix, read as a number; [acc] is
    [None] until a digit has been read. *)
Fixpoint parseDigits (radix : Z) (acc : option Z) (s : jsstr) : option Z :=
  match s with
  | c :: s' =>
      match digitValue c with
      | Some d =>
          if d <? radix then parseDigits radix (Some (default 0 acc * radix + d)) s'
          else acc
      | None => acc
      end
  | [] => acc
  end.

(** The sign prefix read by [parseInt]. *)
Definition parseSign (s : jsstr) : Z * jsstr :=
  match s with
  | 45%N :: s' => (-1, s')
  | 43%N :: s' => (1, s')
  | _ => (1, s)
  end.

(** [parseInt(s, 10)]; [None] is [NaN]. *)
Definition parseInt10 (s : jsstr) : option Z :=
  let '(sign, s') := parseSign (trimStart s) in
  (fun n => sign * n) <$> parseDigits 10 None s'.

(** [parseInt(s)] without a radix: base 16 after a [0x] or [0X] prefix,
    base 10 otherwise. *)
Definition parseInt (s : jsstr) : option Z :=
  let '(sign, s') := parseSign (trimStart s) in
  match s' with
  | 48%N :: x :: s'' =>
      if ((x =? 120) || (x =? 88))%N
      then (fun n => sign * n) <$> parseDigits 16 None s''
      else (fun n => sign * n) <$> parseDigits 10 None s'
  | _ => (fun n => sign * n) <$> parseDigits 10 None s'
  end.

(** [x || 0] on a number: [NaN] and zero are falsy. *)
Definition orZero (x : option Z) : Z := default 0 x.

(** ** The host's string operations *)

Definition isAscii (c : N) : bool := (c <? 128)%N.

Definition asciiLower (c : N) : N :=
  if ((65 <=? c) && (c <=? 90))%N then (c + 32)%N else c.

Definition asciiUpper (c : N) : N :=
  if ((97 <=? c) && (c <=? 122))%N then (c - 32)%N else c.

(** The case conversions and the collation of the host.  On strings of
    ASCII characters the conversions are the ASCII ones, and
    [localeCompare] is a consistent comparison: a total preorder. *)
Class JSHost := {
  toLowerCase : jsstr -> jsstr;
  toUpperCase : jsstr -> jsstr;
  localeCompare : jsstr -> jsstr -> Z;
  toLowerCase_ascii :
    forall s, forallb isAscii s = true -> toLowerCase s = asciiLower <$> s;
  toUpperCase_ascii :
    forall s, forallb isAscii s = true -> toUpperCase s = asciiUpper <$> s;
  localeCompare_flip :
    forall a b, 0 <= localeCompare a b -> localeCompare b a <= 0;
  localeCompare_trans :
    forall a b c,
      localeCompare a b <= 0 -> localeCompare b c <= 0 -> localeCompare a c <= 0
}.

(** ** Types of index.tsx *)

(** [type ParsedRow = Record<string, string>] *)
Abbreviation ParsedRow := (gmap jsstr jsstr) (only parsing).

(** A column mapping, [Record<string, string>]. *)
Abbreviation Mapping := (gmap jsstr jsstr) (only parsing).

Record DataFile := {
  name : jsstr;
  data : list ParsedRow;
  headers : list jsstr
}.

Record AnalysisResult := {
  softlandTotal : Z;
  controlTotal : Z;
  missingCount : Z;
  missingAmount : option Z;
  missingRecords : list ParsedRow;
  matchedCount : Z;
  controlRecords : list ParsedRow;
  softlandRecords : list ParsedRow
}.

Inductive AuditStatus := pending | verified | failed.

#[export] Instance AuditStatus_eq_dec : EqDecision AuditStatus.
Proof. solve_decision. Defined.

Inductive Tab := dashboard | softland | control.

Record SchoolState := {
  softlandFile : option DataFile;
  controlFile : option DataFile;
  softlandMapping : Mapping;
  controlMapping : Mapping;
  analysis : option AnalysisResult;
  auditState : gmap jsstr AuditStatus;
  softlandSearch : jsstr;
  controlSearch : jsstr;
  activeTab : Tab
}.

(** [o[k]] where [k] may be [undefined]: the property key is then the
    string ["undefined"]. *)
Definition propKey (k : option jsstr) : jsstr := default (js "undefined") k.

(** [row[mapping[field]]] *)
Definition cell (row : ParsedRow) (mapping : Mapping) (field : jsstr) : option jsstr :=
  row !! propKey (mapping !! field).

(** [x || d] on a string or [undefined]. *)
Definition orElse (x : option jsstr) (d : jsstr) : jsstr :=
  match x with
  | Some (c :: s) => c :: s
  | _ => d
  end.

(** ** Helper functions *)

Definition isDotOrDash (c : N) : bool := ((c =? 46) || (c =? 45))%N.

Definition normalizeRut `{JSHost} (rut : option jsstr) : jsstr :=
  match rut with
  | Some (c :: r) => trim (toUpperCase (removeAll isDotOrDash (c :: r)))
  | _ => []
  end.

Definition isZero (c : N) : bool := (c =? 48)%N.

Definition normalizeInvoice (inv : option jsstr) : jsstr :=
  match inv with
  | Some (c :: r) => dropWhile isZero (trim (c :: r))
  | _ => []
  end.

(** The class [[0-9,.-]]. *)
Definition isAmountChar (c : N) : bool :=
  (isDigit c || (c =? 44) || (c =? 46) || (c =? 45))%N.

Definition isDot (c : N) : bool := (c =? 46)%N.

(** [parseAmount] on a string argument (every call of the model passes a
    string; a number would be returned as it is). *)
Definition parseAmount (amt : option jsstr) : Z :=
  match amt with
  | Some (c :: r) =>
      let clean := List.filter isAmountChar (c :: r) in
      let chileanFormat := removeAll isDot clean in
      orZero (parseInt10 chileanFormat)
  | _ => 0
  end.

(** ** The row validator *)

Definition invalidKeywords : list jsstr :=
  [ js "total"; js "subtotal"; js "suma"; js "libro de compra";
    js "ordenado"; js "desde:"; js "hasta:"; js "moneda:";
    js "per" ++ [237%N] ++ js "odo"; js "periodo"; js "resumen" ].

Definition invalidTypes : list jsstr :=
  [ js "61"; js "56"; js "52"; js "60"; js "nc"; js "n/c";
    js "notacredito"; js "notadebito"; js "credito"; js "debito";
    js "d" ++ [233%N] ++ js "bito"; js "cr" ++ [233%N] ++ js "dito" ].

(** [tipo.replace('.0', '').replace(/\s+/g, '')] *)
Definition tipoClean (tipo : jsstr) : jsstr :=
  removeAll isWhiteSpace (replaceFirst (js ".0") [] tipo).

(** Rule 3.1: [invalidTypes.some(t => tipoClean === t || tipoClean.includes(t))] *)
Definition tipoExcluded (tipo : jsstr) : bool :=
  existsb (fun t => streq (tipoClean tipo) t || includes (tipoClean tipo) t)
          invalidTypes.

(** [/^\d+$/.test(s)] *)
Definition allDigits (s : jsstr) : bool :=
  negb (isEmpty s) && forallb isDigit s.

(** [/^[0-9K]$/.test(s)] *)
Definition isCheckDigit (s : jsstr) : bool :=
  match s with
  | [c] => isDigit c || (c =? 75)%N
  | _ => false
  end.

(** The literals [nan] and [null]. *)
Definition isNanOrNull (s : jsstr) : bool :=
  streq s (js "nan") || streq s (js "null").

(** The checks of [isValidDataRow] on its five local strings. *)
Definition checkFields `{JSHost} (factura rut monto nombre tipo : jsstr) : bool :=
  (* 1.1 *)
  if isEmpty factura || streq factura (js "0") || isNanOrNull factura then false else
  (* 1.2 *)
  let rutClean := normalizeRut (Some rut) in
  if isEmpty rutClean || (length rutClean <? 7)%nat then false else
  (* 1.3 *)
  if isEmpty monto || streq monto (js "0") || isNanOrNull monto then false else
  (* 1.4 *)
  if isEmpty nombre || isNanOrNull nombre then false else
  (* 2.1 *)
  if existsb (fun kw => includes nombre kw) invalidKeywords then false else
  (* 2.2 *)
  if (length nombre <? 3)%nat then false else
  (* 3.1 *)
  if tipoExcluded tipo then false else
  (* 3.2 *)
  if includes nombre (js "nota")
     && (includes nombre (js "credito")
         || includes nombre (js "cr" ++ [233%N] ++ js "dito"))
  then false else
  (* 4 *)
  let montoNumerico := parseAmount (Some monto) in
  if montoNumerico <? 0 then false else
  (* 5 *)
  let rutSinDV := sliceInit rutClean in
  if (length rutSinDV <? 7)%nat || (9 <? length rutSinDV)%nat then false else
  if negb (allDigits rutSinDV) then false else
  let dv := sliceLast rutClean in
  if negb (isCheckDigit dv) then false else
  true.

(** [String(row[mapping[field]] || '').trim()] *)
Definition field (row : ParsedRow) (mapping : Mapping) (f : jsstr) : jsstr :=
  trim (orElse (cell row mapping f) []).

Definition isValidDataRow `{JSHost} (row : ParsedRow) (mapping : Mapping) : bool :=
  let factura := field row mapping (js "factura") in
  let rut := field row mapping (js "rut") in
  let monto := field row mapping (js "monto") in
  let nombre := toLowerCase (field row mapping (js "nombre")) in
  let tipo := toLowerCase (field row mapping (js "tipo")) in
  checkFields factura rut monto nombre tipo.

(** ** The row mapper and the engine of runAnalysis *)

(** The mapping literal that [processRows] passes to the validator. *)
Definition valMapping : Mapping :=
  <[js "factura" := js "factura_val"]>
  (<[js "rut" := js "rut_val"]>
  (<[js "monto" := js "monto_val"]>
  (<[js "nombre" := js "nombre_val"]>
  (<[js "fecha" := js "fecha_val"]>
  (<[js "tipo" := js "tipo_val"]> ∅))))).

(** The object built for the row at index [idx]: the row's own columns,
    then the derived fields.  Rows hold strings, so the bookkeeping number
    [_originalIndex], which the analysis never reads, is kept by its
    decimal text. *)
Definition mapRow `{JSHost} (mapping : Mapping) (idx : nat) (row : ParsedRow) : ParsedRow :=
  <[js "_originalIndex" := numberToString (Z.of_nat idx)]>
  (<[js "_key" := normalizeRut (cell row mapping (js "rut")) ++ js "_"
                  ++ normalizeInvoice (cell row mapping (js "factura"))]>
  (<[js "tipo_val" := orElse (cell row mapping (js "tipo")) []]>
  (<[js "fecha_val" := orElse (cell row mapping (js "fecha")) []]>
  (<[js "nombre_val" := orElse (cell row mapping (js "nombre")) []]>
  (<[js "monto_val" :=
       numberToString (parseAmount (Some (orElse (cell row mapping (js "monto")) (js "0"))))]>
  (<[js "rut_val" := orElse (cell row mapping (js "rut")) []]>
  (<[js "factura_val" := orElse (cell row mapping (js "factura")) []]> row))))))).

Definition processRows `{JSHost} (rows : list ParsedRow) (mapping : Mapping) : list ParsedRow :=
  List.filter (fun r => isValidDataRow r valMapping) (imap (mapRow mapping) rows).

(** [r._key], [undefined] when the row has no such property. *)
Definition rowKey (r : ParsedRow) : option jsstr := r !! js "_key".

(** [a + b] on numbers, [NaN] absorbing. *)
Definition numAdd (a b : option Z) : option Z :=
  match a, b with
  | Some x, Some y => Some (x + y)
  | _, _ => None
  end.

(** [parseInt(r.monto_val)]; [parseInt(undefined)] is [NaN]. *)
Definition montoOf (r : ParsedRow) : option Z :=
  r !! js "monto_val" ≫= parseInt.

(** Lines 997-1019 of [runAnalysis]: the analysis built from the two
    processed lists. *)
Definition reconcile (softlandProcessed controlProcessed : list ParsedRow) : AnalysisResult :=
  let controlKeys : gset (option jsstr) := list_to_set (rowKey <$> controlProcessed) in
  let missing :=
    List.filter (fun sRow => negb (bool_decide (rowKey sRow ∈ controlKeys)))
                softlandProcessed in
  let totalMissingAmount :=
    fold_left (fun sum r => numAdd sum (montoOf r)) missing (Some 0) in
  {| softlandTotal := Z.of_nat (length softlandProcessed);
     controlTotal := Z.of_nat (length controlProcessed);
     matchedCount := Z.of_nat (length softlandProcessed) - Z.of_nat (length missing);
     missingCount := Z.of_nat (length missing);
     missingAmount := totalMissingAmount;
     missingRecords := missing;
     controlRecords := controlProcessed;
     softlandRecords := softlandProcessed |}.

(** [updateCurrentSchool({ analysis })] *)
Definition setAnalysis (cur : SchoolState) (a : AnalysisResult) : SchoolState :=
  {| softlandFile := softlandFile cur;
     controlFile := controlFile cur;
     softlandMapping := softlandMapping cur;
     controlMapping := controlMapping cur;
     analysis := Some a;
     auditState := auditState cur;
     softlandSearch := softlandSearch cur;
     controlSearch := controlSearch cur;
     activeTab := activeTab cur |}.

(** [runAnalysis]: nothing happens unless both files are loaded. *)
Definition runAnalysis `{JSHost} (currentData : SchoolState) : SchoolState :=
  match softlandFile currentData, controlFile currentData with
  | Some sf, Some cf =>
      let softlandProcessed := processRows (data sf) (softlandMapping currentData) in
      let controlProcessed := processRows (data cf) (controlMapping currentData) in
      setAnalysis currentData (reconcile softlandProcessed controlProcessed)
  | _, _ => currentData
  end.

(** ** DiscrepancyReport: derived metrics and audit handlers *)

(** [Object.values(auditState).filter(s => s === status).length] *)
Definition countStatus (status : AuditStatus) (auditState : gmap jsstr AuditStatus) : Z :=
  Z.of_nat (length (List.filter (fun s => bool_decide (s = status))
                                (map_to_list auditState).*2)).

Definition verifiedCount (auditState : gmap jsstr AuditStatus) : Z :=
  countStatus verified auditState.

Definition failedCount (auditState : gmap jsstr AuditStatus) : Z :=
  countStatus failed auditState.

Definition realMissing (result : AnalysisResult) (auditState : gmap jsstr AuditStatus) : Z :=
  missingCount result - failedCount auditState.

(** [auditState[r['_key']] !== 'failed'] *)
Definition notFailed (auditState : gmap jsstr AuditStatus) (r : ParsedRow) : bool :=
  negb (bool_decide (auditState !! propKey (rowKey r) = Some failed)).

Definition realMissingAmount (result : AnalysisResult) (auditState : gmap jsstr AuditStatus) : Z :=
  fold_left (fun sum r => sum + parseAmount (r !! js "monto_val"))
            (List.filter (notFailed auditState) (missingRecords result)) 0.

(** [handleAuditAction]: the state handed to [setAuditState]. *)
Definition handleAuditAction (auditState : gmap jsstr AuditStatus)
    (ids : list jsstr) (status : AuditStatus) : gmap jsstr AuditStatus :=
  fold_left (fun newState id => <[id := status]> newState) ids auditState.

(** One turn of the [forEach] of [handleBulkAutoCheck]. *)
Definition autoCheck (result : AnalysisResult)
    (newState : gmap jsstr AuditStatus) (id : jsstr) : gmap jsstr AuditStatus :=
  match List.find (fun r => bool_decide (rowKey r = Some id)) (missingRecords result) with
  | None => newState
  | Some record =>
      let targetInv := normalizeInvoice (record !! js "factura_val") in
      let found :=
        existsb (fun c => streq (normalizeInvoice (c !! js "factura_val")) targetInv)
                (controlRecords result) in
      <[id := if found then failed else verified]> newState
  end.

(** [handleBulkAutoCheck] (its set [controlKeys] is never read). *)
Definition handleBulkAutoCheck (result : AnalysisResult)
    (auditState : gmap jsstr AuditStatus) (ids : list jsstr) : gmap jsstr AuditStatus :=
  fold_left (autoCheck result) ids auditState.

(** ** MonthlyStats *)

Record MonthStat := { count : Z; total : Z }.

Definition isDashOrSlash (c : N) : bool := ((c =? 45) || (c =? 47))%N.

(** The bucket name of a record. *)
Definition monthYear (r : ParsedRow) : jsstr :=
  let dateStr := orElse (r !! js "fecha_val") [] in
  match split isDashOrSlash dateStr with
  | [p0; p1; p2] =>
      if (length p0 =? 4)%nat then p0 ++ js "-" ++ p1 else p2 ++ js "-" ++ p1
  | _ => js "Desconocido"
  end.

(** [grouped] is kept as the list of its entries in creation order, which
    is the order of [Object.entries] (no bucket name is an array index or
    an inherited property: each is [Desconocido] or holds a dash).  The
    step creates the bucket when it is absent, then adds the record. *)
Fixpoint addToBucket (k : jsstr) (amount : Z) (grouped : list (jsstr * MonthStat))
    : list (jsstr * MonthStat) :=
  match grouped with
  | [] => [(k, {| count := 0 + 1; total := 0 + amount |})]
  | (k', b) :: g =>
      if streq k' k
      then (k', {| count := count b + 1; total := total b + amount |}) :: g
      else (k', b) :: addToBucket k amount g
  end.

Definition groupByMonth (records : list ParsedRow) : list (jsstr * MonthStat) :=
  fold_left (fun grouped r =>
               addToBucket (monthYear r) (parseAmount (r !! js "monto_val")) grouped)
            records [].

(** [Array.prototype.sort] is stable; with a consistent comparison its
    result is that of the stable insertion sort. *)
Fixpoint insertEntry `{JSHost} (x : jsstr * MonthStat) (l : list (jsstr * MonthStat))
    : list (jsstr * MonthStat) :=
  match l with
  | [] => [x]
  | y :: l' =>
      if localeCompare x.1 y.1 <? 0 then x :: y :: l' else y :: insertEntry x l'
  end.

Definition sortEntries `{JSHost} (l : list (jsstr * MonthStat)) : list (jsstr * MonthStat) :=
  fold_left (fun sorted x => insertEntry x sorted) l [].

(** The memoised [stats] of [MonthlyStats]. *)
Definition MonthlyStats `{JSHost} (records : list ParsedRow) : list (jsstr * MonthStat) :=
  sortEntries (groupByMonth records).

(** * Notions used in the statements *)

(** ** Sums and collation *)

Definition Zsum (l : list Z) : Z := foldr Z.add 0 l.

(** The order of the code units, the collation of the reference host. *)
Fixpoint codeUnitCompare (a b : jsstr) : Z :=
  match a, b with
  | [], [] => 0
  | [], _ :: _ => -1
  | _ :: _, [] => 1
  | x :: a', y :: b' =>
      match (x ?= y)%N with
      | Lt => -1
      | Gt => 1
      | Eq => codeUnitCompare a' b'
      end
  end.

(** ** The validator *)

(** A placeholder that exports write for an absent value. *)
Definition isPlaceholder (s : jsstr) : Prop :=
  s = js "nan" \/ s = js "null".

(** What an accepted row looks like: the invoice, the amount and the
    supplier name are present, none is blank, a placeholder or (for the
    invoice and the amount) the text 0, and the normalized tax identifier
    is seven to nine digits followed by a digit or K. *)
Record wellFormed `{JSHost} (row : ParsedRow) (mapping : Mapping) : Prop := {
  wf_factura :
    field row mapping (js "factura") <> []
    /\ field row mapping (js "factura") <> js "0"
    /\ ~ isPlaceholder (field row mapping (js "factura"));
  wf_monto :
    field row mapping (js "monto") <> []
    /\ field row mapping (js "monto") <> js "0"
    /\ ~ isPlaceholder (field row mapping (js "monto"));
  wf_nombre :
    (3 <= length (toLowerCase (field row mapping (js "nombre"))))%nat
    /\ ~ isPlaceholder (toLowerCase (field row mapping (js "nombre")));
  wf_rut : exists body dv,
      normalizeRut (Some (field row mapping (js "rut"))) = body ++ [dv]
      /\ (7 <= length body <= 9)%nat
      /\ forallb isDigit body = true
      /\ (isDigit dv || (dv =? 75)%N) = true
}.

(** The cleaning of the document type as the specification words it: a
    trailing [suffix] is removed. *)
Fixpoint removeTrailing (suffix s : jsstr) : jsstr :=
  if streq s suffix then []
  else match s with
       | c :: s' => c :: removeTrailing suffix s'
       | [] => []
       end.

(** [s.endsWith(suffix)] *)
Definition endsWith (s suffix : jsstr) : bool :=
  startsWith (rev s) (rev suffix).

Definition trailingClean (tipo : jsstr) : jsstr :=
  removeAll isWhiteSpace (removeTrailing (js ".0") tipo).

(** [t] equals or contains an element of the exclusion vocabulary. *)
Definition matchesVocabulary (t : jsstr) : Prop :=
  exists v, v ∈ invalidTypes /\ (t = v \/ includes t v = true).

(** The words of the vocabulary hold no dot and do not start with 0. *)
Definition plainWord (v : jsstr) : bool :=
  negb (existsb (N.eqb 46) v)
  && match v with
     | c :: _ => negb (c =? 48)%N
     | [] => false
     end.

(** ** The automatic check *)

(** The record that a key locates: the first missing record with this key. *)
Definition locate (result : AnalysisResult) (id : jsstr) : option ParsedRow :=
  List.find (fun r => bool_decide (rowKey r = Some id)) (missingRecords result).

(** The status that the automatic check gives to a located record. *)
Definition autoVerdict (result : AnalysisResult) (record : ParsedRow) : AuditStatus :=
  if existsb (fun c => streq (normalizeInvoice (c !! js "factura_val"))
                             (normalizeInvoice (record !! js "factura_val")))
             (controlRecords result)
  then failed else verified.

(** ** The monthly aggregation *)

(** [r['fecha_val'] || ''] *)
Definition dateStr (r : ParsedRow) : jsstr := orElse (r !! js "fecha_val") [].

(** A part of a date holds no separator. *)
Definition sepFree (s : jsstr) : bool :=
  forallb (fun c => negb (isDashOrSlash c)) s.

(** [parseAmount(r['monto_val'])] *)
Definition amountOf (r : ParsedRow) : Z := parseAmount (r !! js "monto_val").

(** The records of a bucket, and the statistics it must hold. *)
Definition recordsOf (k : jsstr) (records : list ParsedRow) : list ParsedRow :=
  filter (fun r => monthYear r = k) records.

Definition bucketOf (k : jsstr) (records : list ParsedRow) : MonthStat :=
  {| count := Z.of_nat (length (recordsOf k records));
     total := Zsum (amountOf <$> recordsOf k records) |}.

(** [grouped[k]] on the list of entries. *)
Fixpoint bucketAt (k : jsstr) (grouped : list (jsstr * MonthStat)) : option MonthStat :=
  match grouped with
  | [] => None
  | (k', b) :: g => if streq k' k then Some b else bucketAt k g
  end.

(** The order of the sorted entries. *)
Definition keyLe `{JSHost} (x y : jsstr * MonthStat) : Prop :=
  localeCompare x.1 y.1 <= 0.

(** ** Data of the examples *)

(** The columns of the examples carry the names of the fields. *)
Definition plainMapping : Mapping :=
  <[js "factura" := js "factura"]>
  (<[js "rut" := js "rut"]>
  (<[js "monto" := js "monto"]>
  (<[js "nombre" := js "nombre"]>
  (<[js "fecha" := js "fecha"]>
  (<[js "tipo" := js "tipo"]> ∅))))).

Definition acmeRow (factura tipo : jsstr) : ParsedRow :=
  <[js "factura" := factura]>
  (<[js "rut" := js "12345678-5"]>
  (<[js "monto" := js "10.000"]>
  (<[js "nombre" := js "ACME SPA"]>
  (<[js "fecha" := js "01/01/2024"]>
  (<[js "tipo" := tipo]> ∅))))).

(** The same invoice under another date. *)
Definition acmeRowRedated : ParsedRow :=
  <[js "fecha" := js "31/12/1999"]> (acmeRow (js "1045") (js "33")).

Definition acmeFile (rows : list ParsedRow) : DataFile :=
  {| name := js "libro.csv"; data := rows; headers := [] |}.

(** A session with one Softland row and an empty Control file. *)
Definition acmeSession : SchoolState :=
  {| softlandFile := Some (acmeFile [acmeRow (js "1") (js "33")]);
     controlFile := Some (acmeFile []);
     softlandMapping := plainMapping;
     controlMapping := plainMapping;
     analysis := None;
     auditState := ∅;
     softlandSearch := [];
     controlSearch := [];
     activeTab := dashboard |}.

(** Invoice 100 is missing; Control holds invoice 0100 under another tax
    identifier. *)
Definition missing100 : ParsedRow :=
  <[js "_key" := js "111111111_100"]>
  (<[js "rut_val" := js "11.111.111-1"]>
  (<[js "factura_val" := js "100"]> ∅)).

Definition control0100 : ParsedRow :=
  <[js "_key" := js "222222222_100"]>
  (<[js "rut_val" := js "22.222.222-2"]>
  (<[js "factura_val" := js "0100"]> ∅)).

Definition march15 : ParsedRow :=
  <[js "fecha_val" := js "15/03/2024"]> (<[js "monto_val" := js "1000"]> ∅).

Definition march20 : ParsedRow :=
  <[js "fecha_val" := js "20/03/2024"]> (<[js "monto_val" := js "2000"]> ∅).

(** * Properties *)

(** ** The reference host: ASCII case conversion, code-unit collation *)

Lemma codeUnitCompare_flip a b :
  0 <= codeUnitCompare a b -> codeUnitCompare b a <= 0.
Proof.
  revert b; induction a as [|x a IH]; intros [|y b]; simpl; try lia.
  rewrite (N.compare_antisym x y).
  destruct (x ?= y)%N; simpl; auto; lia.
Qed.

Lemma codeUnitCompare_trans a b c :
  codeUnitCompare a b <= 0 -> codeUnitCompare b c <= 0 -> codeUnitCompare a c <= 0.
Proof.
  revert b c; induction a as [|x a IH]; intros [|y b] [|z c]; simpl; try lia.
  destruct (x ?= y)%N eqn:Hxy; destruct (y ?= z)%N eqn:Hyz; try lia.
  - apply N.compare_eq_iff in Hxy, Hyz; subst.
    rewrite N.compare_refl. apply IH.
  - apply N.compare_eq_iff in Hxy; subst. rewrite Hyz. lia.
  - apply N.compare_eq_iff in Hyz; subst. rewrite Hxy. lia.
  - rewrite N.compare_lt_iff in Hxy, Hyz.
    assert (Hxz : (x ?= z)%N = Lt) by (apply N.compare_lt_iff; lia).
    rewrite Hxz. lia.
Qed.

(** The reference host; it is named where an example needs a host. *)
Definition asciiHost : JSHost := {|
  toLowerCase := fmap asciiLower;
  toUpperCase := fmap asciiUpper;
  localeCompare := codeUnitCompare;
  toLowerCase_ascii := fun s _ => eq_refl;
  toUpperCase_ascii := fun s _ => eq_refl;
  localeCompare_flip := codeUnitCompare_flip;
  localeCompare_trans := codeUnitCompare_trans
|}.

(** ** The engine *)

Lemma filter_bool_decide {A} (P : A -> Prop) `{!forall x, Decision (P x)} (l : list A) :
  List.filter (fun x => bool_decide (P x)) l = filter P l.
Proof.
  induction l as [|x l IH]; simpl; [done|].
  rewrite filter_cons. rewrite IH.
  destruct (decide (P x)) as [Hp|Hp].
  - by rewrite bool_decide_eq_true_2.
  - by rewrite bool_decide_eq_false_2.
Qed.

Lemma missingRecords_reconcile (S C : list ParsedRow) :
  missingRecords (reconcile S C) = filter (fun s => rowKey s ∉ rowKey <$> C) S.
Proof.
  unfold reconcile; simpl.
  rewrite <- filter_bool_decide.
  apply List.filter_ext. intros s.
  rewrite <- bool_decide_not.
  apply bool_decide_ext. by rewrite elem_of_list_to_set.
Qed.

Lemma length_filter_eq {A} `{EqDecision A} (P : A -> Prop) `{!forall x, Decision (P x)}
    (s : A) (l : list A) :
  P s -> length (filter (eq s) (filter P l)) = length (filter (eq s) l).
Proof.
  intros Hs. induction l as [|x l IH]; [done|].
  rewrite !filter_cons.
  destruct (decide (P x)) as [Hp|Hp].
  - rewrite filter_cons. destruct (decide (s = x)); simpl; by rewrite IH.
  - destruct (decide (s = x)) as [->|]; [done|]. apply IH.
Qed.

(** C1.  The missing records of a reconciliation are exactly the rows of the
    Softland list whose matching key is the key of no Control row, in
    their order and with their repetitions: a row that occurs several
    times in Softland and is absent from Control occurs as often among the
    missing records. *)
Theorem missing_is_key_difference (S C : list ParsedRow) :
  missingRecords (reconcile S C) = filter (fun s => rowKey s ∉ rowKey <$> C) S
  /\ (forall s, s ∈ missingRecords (reconcile S C) <->
                s ∈ S /\ forall c, c ∈ C -> rowKey c <> rowKey s)
  /\ (forall s, (forall c, c ∈ C -> rowKey c <> rowKey s) ->
                length (filter (eq s) (missingRecords (reconcile S C)))
                = length (filter (eq s) S)).
Proof.
  rewrite missingRecords_reconcile. split; [done|]. split.
  - intros s. rewrite list_elem_of_filter, list_elem_of_fmap. naive_solver.
  - intros s Hs. apply length_filter_eq.
    rewrite list_elem_of_fmap. naive_solver.
Qed.

(** C2.  After a run with both files loaded, the stored analysis satisfies:
    [missingCount] is the length of [missingRecords]; no missing record has
    the matching key of a Control record; [matchedCount + missingCount] is
    [softlandTotal], the number of Softland rows that passed the
    validator. *)
Theorem analysis_invariants `{JSHost} (cur : SchoolState) (sf cf : DataFile) :
  softlandFile cur = Some sf ->
  controlFile cur = Some cf ->
  exists r,
    analysis (runAnalysis cur) = Some r
    /\ missingCount r = Z.of_nat (length (missingRecords r))
    /\ Forall (fun m => rowKey m ∉ rowKey <$> controlRecords r) (missingRecords r)
    /\ matchedCount r + missingCount r = softlandTotal r
    /\ softlandTotal r
       = Z.of_nat (length (processRows (data sf) (softlandMapping cur))).
Proof.
  intros Hs Hc. unfold runAnalysis. rewrite Hs, Hc.
  eexists. split; [reflexivity|].
  split; [reflexivity|]. split.
  - rewrite missingRecords_reconcile. simpl.
    apply Forall_forall. intros m Hm.
    by apply list_elem_of_filter in Hm as [Hm _].
  - split; [simpl; lia | reflexivity].
Qed.

(** ** The audit handlers *)

Lemma handleAuditAction_lookup (st : gmap jsstr AuditStatus) ids status k :
  handleAuditAction st ids status !! k
  = if decide (k ∈ ids) then Some status else st !! k.
Proof.
  unfold handleAuditAction. revert st.
  induction ids as [|id ids IH]; intros st.
  - cbn [fold_left]. destruct (decide (k ∈ [])) as [Hin|_]; [by apply elem_of_nil in Hin | done].
  - cbn [fold_left]. rewrite IH.
    destruct (decide (k = id)) as [->|Hne].
    + rewrite lookup_insert_eq. repeat case_decide; set_solver.
    + rewrite lookup_insert_ne by done. repeat case_decide; set_solver.
Qed.

(** C7.  A bulk update gives every listed key the given status and leaves
    every other key as it was; the update of one key is the bulk update of
    a one-element list, an overwrite of that entry; the keys are arbitrary
    (nothing ties them to an analysis). *)
Theorem bulk_update_frame (st : gmap jsstr AuditStatus) (ids : list jsstr)
    (status : AuditStatus) :
  (forall k, k ∈ ids -> handleAuditAction st ids status !! k = Some status)
  /\ (forall k, k ∉ ids -> handleAuditAction st ids status !! k = st !! k)
  /\ (forall k, handleAuditAction st [k] status = <[k := status]> st).
Proof.
  repeat split.
  - intros k Hk. by rewrite handleAuditAction_lookup, decide_True.
  - intros k Hk. by rewrite handleAuditAction_lookup, decide_False.
Qed.

Lemma autoCheck_lookup (result : AnalysisResult) (st : gmap jsstr AuditStatus) (id k : jsstr) :
  autoCheck result st id !! k
  = match locate result id with
    | Some record => if decide (k = id) then Some (autoVerdict result record) else st !! k
    | None => st !! k
    end.
Proof.
  unfold autoCheck, locate.
  destruct (List.find _ _) as [record|]; [|done].
  destruct (decide (k = id)) as [->|Hne].
  - by rewrite lookup_insert_eq.
  - by rewrite lookup_insert_ne.
Qed.

Lemma handleBulkAutoCheck_lookup (result : AnalysisResult) (st : gmap jsstr AuditStatus)
    (ids : list jsstr) (k : jsstr) :
  handleBulkAutoCheck result st ids !! k
  = match locate result k with
    | Some record => if decide (k ∈ ids) then Some (autoVerdict result record) else st !! k
    | None => st !! k
    end.
Proof.
  unfold handleBulkAutoCheck. revert st.
  induction ids as [|id ids IH]; intros st; cbn [fold_left].
  - destruct (locate result k); [|done].
    destruct (decide (k ∈ [])) as [Hin|_]; [by apply elem_of_nil in Hin | done].
  - rewrite IH, autoCheck_lookup.
    destruct (decide (k = id)) as [->|Hne].
    + destruct (locate result id); [|done].
      repeat case_decide; set_solver.
    + destruct (locate result k), (locate result id);
        repeat case_decide; set_solver.
Qed.

Lemma locate_None (result : AnalysisResult) (id : jsstr) :
  (forall m, m ∈ missingRecords result -> rowKey m <> Some id) ->
  locate result id = None.
Proof.
  intros Hno. unfold locate.
  destruct (List.find _ _) as [record|] eqn:Hfind; [|done].
  apply List.find_some in Hfind as [Hin Hkey].
  apply bool_decide_eq_true in Hkey.
  apply list_elem_of_In in Hin. by destruct (Hno record Hin).
Qed.

Lemma autoVerdict_failed (result : AnalysisResult) (record : ParsedRow) :
  (exists c, c ∈ controlRecords result
             /\ normalizeInvoice (c !! js "factura_val")
                = normalizeInvoice (record !! js "factura_val")) ->
  autoVerdict result record = failed.
Proof.
  intros (c & Hc & Heq). unfold autoVerdict.
  replace (existsb _ _) with true; [done|].
  symmetry. apply existsb_exists. exists c. split.
  - by apply list_elem_of_In.
  - unfold streq. by apply bool_decide_eq_true.
Qed.

Lemma autoVerdict_verified (result : AnalysisResult) (record : ParsedRow) :
  (forall c, c ∈ controlRecords result ->
             normalizeInvoice (c !! js "factura_val")
             <> normalizeInvoice (record !! js "factura_val")) ->
  autoVerdict result record = verified.
Proof.
  intros Hno. unfold autoVerdict.
  destruct (existsb _ _) eqn:Hex; [|done].
  apply existsb_exists in Hex as (c & Hc & Heq).
  apply bool_decide_eq_true in Heq.
  apply list_elem_of_In in Hc. by destruct (Hno c Hc).
Qed.

(** C4.  In the state produced by the automatic check, a selected key that
    locates a missing record is [failed] when some Control record has the
    normalized invoice number of that record, whatever its tax identifier
    and amount, and [verified] when none has; a key that locates no
    missing record keeps the entry it had; so invoice 100 against a Control
    row with invoice 0100 and another tax identifier becomes [failed]. *)
Theorem auto_check_status (result : AnalysisResult) (st : gmap jsstr AuditStatus)
    (ids : list jsstr) :
  (forall id record,
      id ∈ ids -> locate result id = Some record ->
      (exists c, c ∈ controlRecords result
                 /\ normalizeInvoice (c !! js "factura_val")
                    = normalizeInvoice (record !! js "factura_val")) ->
      handleBulkAutoCheck result st ids !! id = Some failed)
  /\ (forall id record,
      id ∈ ids -> locate result id = Some record ->
      (forall c, c ∈ controlRecords result ->
                 normalizeInvoice (c !! js "factura_val")
                 <> normalizeInvoice (record !! js "factura_val")) ->
      handleBulkAutoCheck result st ids !! id = Some verified)
  /\ (forall id,
      (forall m, m ∈ missingRecords result -> rowKey m <> Some id) ->
      handleBulkAutoCheck result st ids !! id = st !! id)
  /\ (missingRecords (reconcile [missing100] [control0100]) = [missing100]
      /\ handleBulkAutoCheck (reconcile [missing100] [control0100]) st
           [js "111111111_100"] !! js "111111111_100" = Some failed).
Proof.
  split; [|split; [|split]].
  - intros id record Hin Hloc Hex.
    rewrite handleBulkAutoCheck_lookup, Hloc, decide_True by done.
    by rewrite autoVerdict_failed.
  - intros id record Hin Hloc Hno.
    rewrite handleBulkAutoCheck_lookup, Hloc, decide_True by done.
    by rewrite autoVerdict_verified.
  - intros id Hno.
    by rewrite handleBulkAutoCheck_lookup, locate_None.
  - split; [by vm_compute|].
    rewrite handleBulkAutoCheck_lookup.
    replace (locate _ _) with (Some missing100) by (by vm_compute).
    rewrite decide_True by set_solver.
    by vm_compute.
Qed.

(** ** The derived metrics *)

Lemma Zsum_cons (x : Z) (l : list Z) : Zsum (x :: l) = x + Zsum l.
Proof. reflexivity. Qed.

Lemma fold_left_add_Zsum {A} (f : A -> Z) (l : list A) (acc : Z) :
  fold_left (fun sum r => sum + f r) l acc = acc + Zsum (f <$> l).
Proof.
  revert acc. induction l as [|x l IH]; intros acc; cbn [fold_left].
  - change (Zsum (f <$> [])) with 0. lia.
  - rewrite IH, fmap_cons, Zsum_cons. lia.
Qed.

Lemma countStatus_size (status : AuditStatus) (st : gmap jsstr AuditStatus) :
  countStatus status st = Z.of_nat (size (filter (fun kv => kv.2 = status) st)).
Proof.
  unfold countStatus. f_equal.
  rewrite (filter_bool_decide (fun s => s = status)).
  induction st as [|k x m Hk IH] using map_ind.
  - by rewrite map_to_list_empty, map_filter_empty, map_size_empty.
  - rewrite map_to_list_insert by done.
    rewrite fmap_cons, filter_cons, map_filter_insert. cbn [snd].
    destruct (decide (x = status)) as [->|Hne].
    + rewrite map_size_insert_None by (by rewrite map_lookup_filter_None; left).
      cbn [length]. by rewrite IH.
    + by rewrite delete_id.
Qed.

(** C6.  [verified] and [failed] count the entries of the audit state with
    that status; [realMissing] is [missingCount] less the failed entries;
    [realMissingAmount] is the sum of the parsed [monto_val] of the missing
    records whose entry is not [failed], so a record without an entry is
    part of the sum. *)
Theorem derived_metrics (result : AnalysisResult) (st : gmap jsstr AuditStatus) :
  verifiedCount st = Z.of_nat (size (filter (fun kv => kv.2 = verified) st))
  /\ failedCount st = Z.of_nat (size (filter (fun kv => kv.2 = failed) st))
  /\ realMissing result st = missingCount result - failedCount st
  /\ realMissingAmount result st
     = Zsum ((fun r => parseAmount (r !! js "monto_val"))
             <$> filter (fun r => st !! propKey (rowKey r) <> Some failed)
                        (missingRecords result))
  /\ (forall r, r ∈ missingRecords result ->
                st !! propKey (rowKey r) = None ->
                r ∈ filter (fun r => st !! propKey (rowKey r) <> Some failed)
                           (missingRecords result)).
Proof.
  split; [apply countStatus_size|].
  split; [apply countStatus_size|].
  split; [reflexivity|]. split.
  - unfold realMissingAmount. rewrite fold_left_add_Zsum, Z.add_0_l.
    do 2 f_equal. rewrite <- filter_bool_decide.
    apply List.filter_ext. intros r. unfold notFailed.
    by rewrite bool_decide_not.
  - intros r Hin Hnone. apply list_elem_of_filter. split; [|done].
    by rewrite Hnone.
Qed.

(** ** The validator *)

Section Validator.

Context `{H : JSHost}.

(** C9.  The validator reads the factura, rut, monto, nombre and tipo
    cells only: two rows that agree on these five cells get the same
    answer, whatever their fecha cell and their other columns hold. *)
Theorem validity_ignores_date (row1 row2 : ParsedRow) (mapping : Mapping) :
  cell row1 mapping (js "factura") = cell row2 mapping (js "factura") ->
  cell row1 mapping (js "rut") = cell row2 mapping (js "rut") ->
  cell row1 mapping (js "monto") = cell row2 mapping (js "monto") ->
  cell row1 mapping (js "nombre") = cell row2 mapping (js "nombre") ->
  cell row1 mapping (js "tipo") = cell row2 mapping (js "tipo") ->
  isValidDataRow row1 mapping = isValidDataRow row2 mapping.
Proof.
  intros Hf Hr Hm Hn Ht. unfold isValidDataRow, field.
  by rewrite Hf, Hr, Hm, Hn, Ht.
Qed.

Lemma isEmpty_false (s : jsstr) : isEmpty s = false -> s <> [].
Proof. by destruct s. Qed.

Lemma slice_split (s : jsstr) : s = sliceInit s ++ sliceLast s.
Proof. unfold sliceInit, sliceLast. by rewrite take_drop. Qed.

Ltac pass_check H :=
  match type of H with
  | (if ?c then false else _) = true =>
      let E := fresh "Hrule" in destruct c eqn:E; [discriminate H|]
  end.

Lemma isNanOrNull_false (s : jsstr) : isNanOrNull s = false -> ~ isPlaceholder s.
Proof.
  unfold isNanOrNull, streq. intros [Hnan Hnull]%orb_false_elim.
  apply bool_decide_eq_false in Hnan, Hnull. by intros [?|?].
Qed.

Lemma checkFields_true (factura rut monto nombre tipo : jsstr) :
  checkFields factura rut monto nombre tipo = true ->
  (factura <> [] /\ factura <> js "0" /\ ~ isPlaceholder factura)
  /\ (monto <> [] /\ monto <> js "0" /\ ~ isPlaceholder monto)
  /\ ((3 <= length nombre)%nat /\ ~ isPlaceholder nombre)
  /\ tipoExcluded tipo = false
  /\ 0 <= parseAmount (Some monto)
  /\ (7 <= length (sliceInit (normalizeRut (Some rut))) <= 9)%nat
  /\ allDigits (sliceInit (normalizeRut (Some rut))) = true
  /\ isCheckDigit (sliceLast (normalizeRut (Some rut))) = true.
Proof.
  unfold checkFields. cbv zeta. intros Hv.
  repeat pass_check Hv. clear Hv.
  repeat match goal with
         | H : (_ || _) = false |- _ => apply orb_false_elim in H as [? ?]
         | H : negb _ = false |- _ => apply negb_false_iff in H
         end.
  unfold streq in *.
  repeat match goal with
         | H : isNanOrNull _ = false |- _ => apply isNanOrNull_false in H
         | H : bool_decide _ = false |- _ => apply bool_decide_eq_false in H
         | H : isEmpty _ = false |- _ => apply isEmpty_false in H
         | H : (_ <? _)%nat = false |- _ => apply Nat.ltb_ge in H
         | H : (_ <? _) = false |- _ => apply Z.ltb_ge in H
         end.
  repeat split; auto.
Qed.

Lemma isCheckDigit_inv (s : jsstr) :
  isCheckDigit s = true -> exists dv, s = [dv] /\ (isDigit dv || (dv =? 75)%N) = true.
Proof. destruct s as [|c [|d s]]; simpl; try done. eauto. Qed.

Lemma valid_wellFormed (row : ParsedRow) (mapping : Mapping) :
  isValidDataRow row mapping = true -> wellFormed row mapping.
Proof.
  unfold isValidDataRow. cbv zeta. intros Hv.
  apply checkFields_true in Hv
    as (Hf & Hm & Hn & _ & _ & Hlen & Hdig & Hdv).
  split; auto.
  apply isCheckDigit_inv in Hdv as (dv & Hdv & Hshape).
  exists (sliceInit (normalizeRut (Some (field row mapping (js "rut"))))), dv.
  rewrite <- Hdv, <- slice_split. repeat split; try lia; auto.
  unfold allDigits in Hdig. by apply andb_true_iff in Hdig as [_ ?].
Qed.

Lemma checkFields_no_factura (rut monto nombre tipo : jsstr) :
  checkFields [] rut monto nombre tipo = false.
Proof. reflexivity. Qed.

Lemma field_empty (mapping : Mapping) (f : jsstr) : field ∅ mapping f = [].
Proof. unfold field, cell. by rewrite lookup_empty. Qed.

(** C3.  The validator is a function from rows to booleans, defined on
    every row and mapping (a cell that is absent reads as the empty
    string); it answers [false] for every row that is not well formed: a
    factura, monto or nombre that is missing, blank or a placeholder, a tax
    identifier that is not seven to nine digits and a check character; so
    for the empty row and for a row where one of the four cells is absent
    or empty. *)
Theorem validator_total_rejects_malformed (row : ParsedRow) (mapping : Mapping) :
  (isValidDataRow row mapping = true \/ isValidDataRow row mapping = false)
  /\ (~ wellFormed row mapping -> isValidDataRow row mapping = false)
  /\ isValidDataRow ∅ mapping = false
  /\ (forall f, f ∈ [js "factura"; js "rut"; js "monto"; js "nombre"] ->
                cell row mapping f = None \/ cell row mapping f = Some [] ->
                isValidDataRow row mapping = false).
Proof.
  split; [destruct (isValidDataRow row mapping); auto|].
  assert (Hmal : ~ wellFormed row mapping -> isValidDataRow row mapping = false).
  { intros Hnwf. destruct (isValidDataRow row mapping) eqn:Hv; [|done].
    destruct Hnwf. by apply valid_wellFormed. }
  split; [done|]. split.
  - unfold isValidDataRow. by rewrite !field_empty.
  - intros f Hf Hcell. apply Hmal.
    intros [[Hfa _] [Hmo _] [Hno _] (body & dv & Hrut & Hlen & _)].
    assert (Hblank : field row mapping f = []).
    { unfold field. by destruct Hcell as [-> | ->]. }
    set_unfold in Hf. destruct Hf as [-> | [-> | [-> | [-> | []]]]].
    + done.
    + rewrite Hblank in Hrut. simpl in Hrut. by destruct body.
    + done.
    + rewrite Hblank in Hno.
      rewrite toLowerCase_ascii in Hno by done. simpl in Hno. lia.
Qed.

(** *** Rows of ASCII text: the verdict is the same under every host *)

Lemma forallb_dropWhile (q p : N -> bool) (s : jsstr) :
  forallb q s = true -> forallb q (dropWhile p s) = true.
Proof.
  induction s as [|c s IH]; simpl; [done|].
  intros Hq. destruct (p c); [|done].
  apply IH. by apply andb_true_iff in Hq as [_ ?].
Qed.

Lemma forallb_rev (q : N -> bool) (s : jsstr) :
  forallb q (rev s) = forallb q s.
Proof.
  induction s as [|c s IH]; simpl; [done|].
  rewrite forallb_app, IH. simpl. rewrite andb_true_r. apply andb_comm.
Qed.

Lemma forallb_trim (q : N -> bool) (s : jsstr) :
  forallb q s = true -> forallb q (trim s) = true.
Proof.
  intros Hq. unfold trim, trimEnd, trimStart.
  rewrite forallb_rev. apply forallb_dropWhile.
  rewrite forallb_rev. by apply forallb_dropWhile.
Qed.

Lemma forallb_removeAll (q p : N -> bool) (s : jsstr) :
  forallb q s = true -> forallb q (removeAll p s) = true.
Proof.
  induction s as [|c s IH]; simpl; [done|].
  intros [Hc Hs]%andb_true_iff. destruct (p c); simpl; [auto|].
  rewrite Hc. auto.
Qed.

Lemma normalizeRut_ascii (rut : jsstr) :
  forallb isAscii rut = true ->
  normalizeRut (Some rut) = @normalizeRut asciiHost (Some rut).
Proof.
  intros Ha. unfold normalizeRut. destruct rut as [|c r]; [done|].
  rewrite toUpperCase_ascii; [done|]. by apply forallb_removeAll.
Qed.

Lemma isValidDataRow_ascii (row : ParsedRow) (mapping : Mapping) :
  forallb isAscii (orElse (cell row mapping (js "rut")) []) = true ->
  forallb isAscii (orElse (cell row mapping (js "nombre")) []) = true ->
  forallb isAscii (orElse (cell row mapping (js "tipo")) []) = true ->
  isValidDataRow row mapping = @isValidDataRow asciiHost row mapping.
Proof.
  intros Hr Hn Ht. unfold isValidDataRow, field.
  rewrite !toLowerCase_ascii by (by apply forallb_trim).
  unfold checkFields. rewrite normalizeRut_ascii by (by apply forallb_trim).
  reflexivity.
Qed.

(** *** Invoice numbers made of zeros *)

Lemma dropWhile_replicate (p : N -> bool) (c : N) (n : nat) :
  p c = true -> dropWhile p (replicate n c) = [].
Proof. intros Hp. induction n as [|n IH]; simpl; [done|]. by rewrite Hp. Qed.

Lemma normalizeInvoice_zeros (inv : jsstr) (n : nat) :
  trim inv = replicate (S n) 48%N -> normalizeInvoice (Some inv) = [].
Proof.
  intros Htrim. unfold normalizeInvoice.
  destruct inv as [|c r]; [done|].
  rewrite Htrim. by apply dropWhile_replicate.
Qed.

Lemma rowKey_mapRow (mapping : Mapping) (idx : nat) (row : ParsedRow) :
  rowKey (mapRow mapping idx row)
  = Some (normalizeRut (cell row mapping (js "rut")) ++ js "_"
          ++ normalizeInvoice (cell row mapping (js "factura"))).
Proof.
  unfold rowKey, mapRow.
  rewrite lookup_insert_ne by (by vm_compute).
  by rewrite lookup_insert_eq.
Qed.

(** C10.  An invoice text that is, once trimmed, one or more zeros is
    normalized to the empty string; so two rows with the same tax
    identifier cell and invoice cells made of zeros get the same matching
    key, which ends in the underscore, whereas the validator's comparison
    with the literal 0 rejects the invoice 0 and lets 00 and 000 pass. *)
Theorem zero_invoices_share_key :
  (forall inv n, trim inv = replicate (S n) 48%N -> normalizeInvoice (Some inv) = [])
  /\ (forall mapping row1 row2 idx1 idx2 inv1 inv2 n1 n2,
        cell row1 mapping (js "rut") = cell row2 mapping (js "rut") ->
        cell row1 mapping (js "factura") = Some inv1 ->
        cell row2 mapping (js "factura") = Some inv2 ->
        trim inv1 = replicate (S n1) 48%N ->
        trim inv2 = replicate (S n2) 48%N ->
        rowKey (mapRow mapping idx1 row1) = rowKey (mapRow mapping idx2 row2)
        /\ rowKey (mapRow mapping idx1 row1)
           = Some (normalizeRut (cell row1 mapping (js "rut")) ++ js "_"))
  /\ (let row00 := mapRow plainMapping 0 (acmeRow (js "00") (js "33")) in
      let row000 := mapRow plainMapping 1 (acmeRow (js "000") (js "33")) in
      let row0 := mapRow plainMapping 2 (acmeRow (js "0") (js "33")) in
      isValidDataRow row00 valMapping = true
      /\ isValidDataRow row000 valMapping = true
      /\ isValidDataRow row0 valMapping = false
      /\ rowKey row00 = Some (js "123456785_")
      /\ rowKey row000 = Some (js "123456785_")).
Proof.
  split; [apply normalizeInvoice_zeros|]. split.
  - intros mapping row1 row2 idx1 idx2 inv1 inv2 n1 n2 Hrut Hf1 Hf2 Hz1 Hz2.
    rewrite !rowKey_mapRow, Hf1, Hf2, Hrut.
    rewrite (normalizeInvoice_zeros inv1 n1), (normalizeInvoice_zeros inv2 n2) by done.
    done.
  - cbv zeta. rewrite !isValidDataRow_ascii by (by vm_compute).
    rewrite !rowKey_mapRow.
    change (cell (acmeRow (js "00") (js "33")) plainMapping (js "rut"))
      with (cell (acmeRow (js "000") (js "33")) plainMapping (js "rut")).
    replace (cell (acmeRow (js "000") (js "33")) plainMapping (js "rut"))
      with (Some (js "12345678-5")) by (by vm_compute).
    rewrite normalizeRut_ascii by (by vm_compute).
    repeat split; by vm_compute.
Qed.

(** *** The document-type rule *)

Lemma startsWith_refl (s : jsstr) : startsWith s s = true.
Proof. induction s as [|c s IH]; simpl; [done|]. by rewrite N.eqb_refl. Qed.

Lemma includes_refl (s : jsstr) : includes s s = true.
Proof. destruct s; simpl; [done|]. by rewrite N.eqb_refl, startsWith_refl. Qed.

Lemma startsWith_app_l (s k v : jsstr) :
  startsWith s v = true -> startsWith (s ++ k) v = true.
Proof.
  revert v. induction s as [|c s IH]; intros [|d v]; simpl; try done.
  intros [Hc Hs]%andb_true_iff. rewrite Hc. simpl. auto.
Qed.

Lemma includes_app_l (s k v : jsstr) :
  includes s v = true -> includes (s ++ k) v = true.
Proof.
  induction s as [|c s IH].
  - destruct v; [by destruct k|done].
  - cbn [includes app]. intros [Hp|Hi]%orb_true_iff.
    + apply (startsWith_app_l (c :: s) k) in Hp. cbn [app] in Hp. by rewrite Hp.
    + rewrite IH by done. apply orb_true_r.
Qed.

Lemma includes_app_r (k s v : jsstr) :
  includes s v = true -> includes (k ++ s) v = true.
Proof.
  intros Hi. induction k as [|c k IH]; [done|].
  cbn [includes app]. rewrite IH. apply orb_true_r.
Qed.

(** A word is not found across a character that it does not hold. *)
Lemma startsWith_app_sep (c : N) (x y v : jsstr) :
  existsb (N.eqb c) v = false ->
  startsWith (x ++ c :: y) v = startsWith x v.
Proof.
  revert v. induction x as [|a x IH]; intros [|d v]; simpl; try done.
  - intros [Hc _]%orb_false_iff. by rewrite Hc.
  - intros [_ Hv]%orb_false_iff. by rewrite IH.
Qed.

Lemma includes_app_sep (c : N) (x y v : jsstr) :
  v <> [] -> existsb (N.eqb c) v = false ->
  includes (x ++ c :: y) v = includes x v || includes y v.
Proof.
  intros Hv Hc. induction x as [|a x IH].
  - pose proof (startsWith_app_sep c [] y v Hc) as E.
    cbn [app includes] in *. rewrite E. by destruct v.
  - pose proof (startsWith_app_sep c (a :: x) y v Hc) as E.
    cbn [app includes] in *. rewrite IH, E. by rewrite orb_assoc.
Qed.

Lemma includes_cons_other (c d : N) (y v : jsstr) :
  c <> d -> includes (c :: y) (d :: v) = includes y (d :: v).
Proof.
  intros Hne. cbn [includes startsWith].
  by rewrite (proj2 (N.eqb_neq c d) Hne).
Qed.

Lemma replaceFirst_spec (pat s : jsstr) :
  replaceFirst pat [] s = s
  \/ exists a b, s = a ++ pat ++ b /\ replaceFirst pat [] s = a ++ b.
Proof.
  induction s as [|c s IH].
  - simpl. destruct (startsWith [] pat) eqn:Hp; [|by left].
    destruct pat; [by left | done].
  - cbn [replaceFirst].
    destruct (startsWith (c :: s) pat) eqn:Hp.
    + right. exists [], (drop (length pat) (c :: s)). split; [|done].
      cbn [app]. clear IH. revert Hp. generalize (c :: s) as t. clear c s.
      induction pat as [|p pat IH]; intros [|c t]; simpl; try done.
      intros [->%N.eqb_eq Ht]%andb_true_iff. f_equal. by apply IH.
    + destruct IH as [-> | (a & b & -> & ->)]; [by left|].
      right. by exists (c :: a), b.
Qed.

Lemma removeTrailing_cons_long (suffix : jsstr) (c : N) (s : jsstr) :
  (length suffix <= length s)%nat ->
  removeTrailing suffix (c :: s) = c :: removeTrailing suffix s.
Proof.
  intros Hlen. cbn [removeTrailing]. unfold streq.
  rewrite bool_decide_eq_false_2; [done|].
  intros <-. simpl in Hlen. lia.
Qed.

Lemma removeTrailing_cons_other (c d : N) (suffix s : jsstr) :
  c <> d ->
  removeTrailing (d :: suffix) (c :: s) = c :: removeTrailing (d :: suffix) s.
Proof.
  intros Hne. cbn [removeTrailing]. unfold streq.
  rewrite bool_decide_eq_false_2; [done|]. congruence.
Qed.

Lemma removeTrailing_app (suffix x y : jsstr) :
  (length suffix <= length y)%nat ->
  removeTrailing suffix (x ++ y) = x ++ removeTrailing suffix y.
Proof.
  intros Hlen. induction x as [|c x IH]; [done|].
  cbn [app]. rewrite removeTrailing_cons_long, IH; [done|].
  rewrite length_app. lia.
Qed.

Lemma removeTrailing_suffix (suffix x : jsstr) :
  removeTrailing suffix (x ++ suffix) = x.
Proof.
  rewrite removeTrailing_app by done.
  assert (removeTrailing suffix suffix = []) as ->; [|apply app_nil_r].
  destruct suffix; cbn [removeTrailing]; unfold streq;
    by rewrite bool_decide_eq_true_2.
Qed.

Lemma removeTrailing_prefix (suffix s : jsstr) :
  exists k, s = removeTrailing suffix s ++ k.
Proof.
  induction s as [|c s IH]; cbn [removeTrailing].
  - destruct (streq [] suffix); by exists [].
  - destruct (streq (c :: s) suffix); [by exists (c :: s)|].
    destruct IH as [k Hk]. exists k. cbn [app]. by rewrite <- Hk.
Qed.

Lemma removeAll_app (p : N -> bool) (x y : jsstr) :
  removeAll p (x ++ y) = removeAll p x ++ removeAll p y.
Proof. apply List.filter_app. Qed.

Lemma invalidTypes_plain (v : jsstr) : v ∈ invalidTypes -> plainWord v = true.
Proof.
  intros Hv. assert (Hall : forallb plainWord invalidTypes = true) by (by vm_compute).
  rewrite forallb_forall in Hall. by apply Hall, list_elem_of_In.
Qed.

Lemma trailingClean_includes (tipo v : jsstr) :
  plainWord v = true ->
  includes (trailingClean tipo) v = true -> includes (tipoClean tipo) v = true.
Proof.
  intros [Hdot Hhead]%andb_true_iff. apply negb_true_iff in Hdot.
  unfold trailingClean, tipoClean.
  destruct (replaceFirst_spec (js ".0") tipo) as [-> | (a & b & -> & ->)].
  - destruct (removeTrailing_prefix (js ".0") tipo) as [k Hk].
    rewrite Hk at 2. rewrite removeAll_app. apply includes_app_l.
  - destruct v as [|d v]; [done|]. apply negb_true_iff, N.eqb_neq in Hhead.
    rewrite removeAll_app.
    destruct b as [|b0 b].
    + rewrite removeTrailing_suffix. apply includes_app_l.
    + change (a ++ js ".0" ++ b0 :: b) with (a ++ [46%N] ++ 48%N :: b0 :: b).
      rewrite app_assoc, removeTrailing_app by (simpl; lia).
      change (js ".0") with [46%N; 48%N].
      rewrite removeTrailing_cons_other by done.
      rewrite <- app_assoc, !removeAll_app.
      change (removeAll isWhiteSpace [46%N]) with [46%N].
      change (removeAll isWhiteSpace (48%N :: ?s)) with (48%N :: removeAll isWhiteSpace s).
      cbn [app]. rewrite includes_app_sep by done.
      intros [Ha|Hb]%orb_true_iff; [by apply includes_app_l|].
      rewrite includes_cons_other in Hb by done.
      apply includes_app_r.
      destruct (removeTrailing_prefix [46%N; 48%N] (b0 :: b)) as [k Hk].
      rewrite Hk, removeAll_app. by apply includes_app_l.
Qed.

Lemma matchesVocabulary_bool (t : jsstr) :
  matchesVocabulary t
  <-> existsb (fun v => streq t v || includes t v) invalidTypes = true.
Proof.
  rewrite existsb_exists. unfold matchesVocabulary. split.
  - intros (v & Hv & Hm). exists v. split; [by apply list_elem_of_In|].
    destruct Hm as [-> | ->]; [|apply orb_true_r].
    by rewrite includes_refl, orb_true_r.
  - intros (v & Hv & Hm). exists v. split; [by apply list_elem_of_In|].
    apply orb_true_iff in Hm as [Heq|Hinc]; [|by right].
    left. by apply bool_decide_eq_true in Heq.
Qed.

Lemma tipoExcluded_iff (tipo : jsstr) :
  tipoExcluded tipo = true <-> matchesVocabulary (tipoClean tipo).
Proof. symmetry. apply matchesVocabulary_bool. Qed.

Lemma trailingClean_excluded (tipo : jsstr) :
  matchesVocabulary (trailingClean tipo) -> tipoExcluded tipo = true.
Proof.
  intros (v & Hv & Hm). apply tipoExcluded_iff. exists v. split; [done|].
  right. apply trailingClean_includes; [by apply invalidTypes_plain|].
  destruct Hm as [-> | Hm]; [apply includes_refl | done].
Qed.

Lemma replaceFirst_absent (pat s : jsstr) :
  includes s pat = false -> replaceFirst pat [] s = s.
Proof.
  induction s as [|c s IH]; cbn [includes replaceFirst].
  - intros [-> _]%orb_false_iff. done.
  - intros [-> Hs]%orb_false_iff. by rewrite IH.
Qed.

Lemma checkFields_tipoExcluded (factura rut monto nombre tipo : jsstr) :
  tipoExcluded tipo = true -> checkFields factura rut monto nombre tipo = false.
Proof.
  intros Ht. unfold checkFields. cbv zeta. rewrite Ht.
  repeat match goal with
         | |- (if ?c then false else _) = false => destruct c; [done|]
         end.
  done.
Qed.

(** C5, as the code has it.  A row is rejected when its document type,
    lower-cased and cleaned of a trailing [.0] and of white space, equals or
    contains a word of the exclusion vocabulary; a row with tipo 61 is
    rejected; and a document type that holds no [.0] at all and, white
    space removed, matches no word of the vocabulary passes the rule. *)
Theorem tipo_rule :
  (forall row mapping,
      matchesVocabulary (trailingClean (toLowerCase (field row mapping (js "tipo")))) ->
      isValidDataRow row mapping = false)
  /\ (forall row mapping,
      cell row mapping (js "tipo") = Some (js "61") ->
      isValidDataRow row mapping = false)
  /\ (forall tipo,
      includes tipo (js ".0") = false ->
      ~ matchesVocabulary (removeAll isWhiteSpace tipo) ->
      tipoExcluded tipo = false).
Proof.
  split; [|split].
  - intros row mapping Hm. unfold isValidDataRow. cbv zeta.
    by apply checkFields_tipoExcluded, trailingClean_excluded.
  - intros row mapping Hcell. unfold isValidDataRow. cbv zeta.
    apply checkFields_tipoExcluded.
    unfold field. rewrite Hcell.
    replace (trim (orElse (Some (js "61")) [])) with (js "61") by (by vm_compute).
    rewrite toLowerCase_ascii by (by vm_compute). by vm_compute.
  - intros tipo Hdot Hno.
    destruct (tipoExcluded tipo) eqn:Hex; [|done].
    apply tipoExcluded_iff in Hex. unfold tipoClean in Hex.
    by rewrite replaceFirst_absent in Hex.
Qed.

(** C5 as stated fails: the document type 6.01 does not end in [.0] and
    matches no word of the vocabulary, as it is and cleaned of a trailing
    [.0] and of white space; yet [replace('.0', '')] turns it into 61 and the
    rule rejects the row, which passes with document type 33. *)
Lemma tipo_rule_counterexample :
  endsWith (js "6.01") (js ".0") = false
  /\ ~ matchesVocabulary (js "6.01")
  /\ ~ matchesVocabulary (trailingClean (js "6.01"))
  /\ tipoClean (js "6.01") = js "61"
  /\ tipoExcluded (js "6.01") = true
  /\ @isValidDataRow asciiHost (acmeRow (js "1045") (js "6.01")) plainMapping = false
  /\ @isValidDataRow asciiHost (acmeRow (js "1045") (js "33")) plainMapping = true.
Proof.
  split; [by vm_compute|].
  split; [rewrite matchesVocabulary_bool; by vm_compute|].
  split; [rewrite matchesVocabulary_bool; by vm_compute|].
  repeat split; by vm_compute.
Qed.

End Validator.

(** ** The monthly aggregation *)

Section Monthly.

Context `{H : JSHost}.

Lemma Zsum_app (l1 l2 : list Z) : Zsum (l1 ++ l2) = Zsum l1 + Zsum l2.
Proof.
  induction l1 as [|x l1 IH]; [done|].
  cbn [app]. rewrite !Zsum_cons, IH. lia.
Qed.

Lemma bucketAt_addToBucket (k k' : jsstr) (amount : Z) (g : list (jsstr * MonthStat)) :
  bucketAt k' (addToBucket k amount g)
  = if decide (k' = k)
    then Some (match bucketAt k g with
               | Some b => {| count := count b + 1; total := total b + amount |}
               | None => {| count := 0 + 1; total := 0 + amount |}
               end)
    else bucketAt k' g.
Proof.
  induction g as [|[k0 b0] g IH]; cbn [addToBucket bucketAt]; unfold streq in *.
  - destruct (decide (k' = k)) as [->|Hne].
    + by rewrite bool_decide_eq_true_2.
    + by rewrite bool_decide_eq_false_2.
  - destruct (decide (k0 = k)) as [->|Hk0].
    + rewrite (bool_decide_eq_true_2 (k = k)) by done. cbn [bucketAt]. unfold streq.
      destruct (decide (k' = k)) as [->|Hne].
      * by rewrite bool_decide_eq_true_2.
      * by rewrite bool_decide_eq_false_2.
    + rewrite (bool_decide_eq_false_2 (k0 = k)) by done. cbn [bucketAt]. unfold streq.
      rewrite IH. destruct (decide (k' = k)) as [->|Hne].
      * by rewrite bool_decide_eq_false_2.
      * done.
Qed.

Lemma addToBucket_keys (k : jsstr) (amount : Z) (g : list (jsstr * MonthStat)) :
  (addToBucket k amount g).*1 = if decide (k ∈ g.*1) then g.*1 else g.*1 ++ [k].
Proof.
  induction g as [|[k0 b0] g IH]; cbn [addToBucket]; unfold streq.
  - by rewrite decide_False by apply not_elem_of_nil.
  - destruct (decide (k0 = k)) as [->|Hk0].
    + rewrite bool_decide_eq_true_2 by done.
      rewrite decide_True; [done|]. cbn. apply list_elem_of_here.
    + rewrite bool_decide_eq_false_2 by done.
      cbn [fmap list_fmap fst]. rewrite IH.
      destruct (decide (k ∈ g.*1)) as [Hin|Hin].
      * rewrite decide_True; [done|]. by apply list_elem_of_further.
      * rewrite decide_False; [done|].
        intros [?|?]%elem_of_cons; congruence.
Qed.

Lemma groupByMonth_snoc (records : list ParsedRow) (r : ParsedRow) :
  groupByMonth (records ++ [r])
  = addToBucket (monthYear r) (amountOf r) (groupByMonth records).
Proof. unfold groupByMonth. by rewrite fold_left_app. Qed.

Lemma groupByMonth_NoDup (records : list ParsedRow) :
  NoDup (groupByMonth records).*1.
Proof.
  induction records as [|r records IH] using rev_ind; [constructor|].
  rewrite groupByMonth_snoc, addToBucket_keys.
  destruct (decide _) as [Hin|Hin]; [done|].
  apply NoDup_app. split; [done|]. split; [|apply NoDup_singleton].
  intros k Hk ->%list_elem_of_singleton. done.
Qed.

Lemma recordsOf_snoc (k : jsstr) (records : list ParsedRow) (r : ParsedRow) :
  recordsOf k (records ++ [r])
  = recordsOf k records ++ (if decide (monthYear r = k) then [r] else []).
Proof.
  unfold recordsOf. by rewrite filter_app.
Qed.

Lemma groupByMonth_bucketAt (records : list ParsedRow) (k : jsstr) :
  bucketAt k (groupByMonth records)
  = if decide (recordsOf k records = []) then None else Some (bucketOf k records).
Proof.
  induction records as [|r records IH] using rev_ind; [done|].
  rewrite groupByMonth_snoc, bucketAt_addToBucket.
  unfold bucketOf. rewrite recordsOf_snoc.
  destruct (decide (k = monthYear r)) as [->|Hne].
  - rewrite (decide_True (P := monthYear r = monthYear r)) by done. rewrite IH.
    rewrite (decide_False (P := _ ++ [r] = [])) by (by intros [_ ?]%app_eq_nil).
    f_equal. rewrite length_app, fmap_app, Zsum_app.
    change (Zsum (amountOf <$> [r])) with (amountOf r + 0).
    change (length [r]) with 1%nat.
    destruct (decide (recordsOf (monthYear r) records = [])) as [->|Hrec].
    + change (Zsum (amountOf <$> [])) with 0. f_equal; lia.
    + unfold bucketOf. cbn [count total]. f_equal; lia.
  - rewrite (decide_False (P := monthYear r = k)) by done.
    rewrite app_nil_r. apply IH.
Qed.

Lemma bucketAt_elem_of (k : jsstr) (b : MonthStat) (g : list (jsstr * MonthStat)) :
  NoDup g.*1 -> (k, b) ∈ g <-> bucketAt k g = Some b.
Proof.
  induction g as [|[k0 b0] g IH]; cbn [bucketAt]; unfold streq.
  - intros _. split; [by intros ?%elem_of_nil | done].
  - cbn [fmap list_fmap fst]. intros [Hk0 Hnd]%NoDup_cons.
    rewrite elem_of_cons, (IH Hnd).
    destruct (decide (k0 = k)) as [->|Hne].
    + rewrite bool_decide_eq_true_2 by done. split.
      * intros [[= ->]|Hb]; [done|]. apply IH in Hb; [|done].
        destruct Hk0. apply list_elem_of_fmap. by exists (k, b).
      * intros [= ->]. by left.
    + rewrite bool_decide_eq_false_2 by done. split; [|by right].
      intros [[= Hk _]|?]; [by destruct Hne | done].
Qed.

(** *** Sorting *)

Lemma insertEntry_Permutation (x : jsstr * MonthStat) l :
  insertEntry x l ≡ₚ x :: l.
Proof.
  induction l as [|y l IH]; cbn [insertEntry]; [done|].
  destruct (_ <? _); [done|]. rewrite IH. apply perm_swap.
Qed.

Lemma sortEntries_Permutation (l : list (jsstr * MonthStat)) :
  sortEntries l ≡ₚ l.
Proof.
  unfold sortEntries.
  induction l as [|x l IH] using rev_ind; [done|].
  rewrite fold_left_app. cbn [fold_left].
  rewrite insertEntry_Permutation, IH. by rewrite Permutation_app_comm.
Qed.

Lemma insertEntry_HdRel (a x : jsstr * MonthStat) l :
  keyLe a x -> HdRel keyLe a l -> HdRel keyLe a (insertEntry x l).
Proof.
  intros Hax Hal. destruct l as [|y l]; cbn [insertEntry]; [by constructor|].
  destruct (_ <? _); constructor; [done|]. by inversion Hal.
Qed.

Lemma insertEntry_Sorted (x : jsstr * MonthStat) l :
  Sorted keyLe l -> Sorted keyLe (insertEntry x l).
Proof.
  induction 1 as [|y l Hs IH Hhd]; cbn [insertEntry]; [by repeat constructor|].
  destruct (localeCompare x.1 y.1 <? 0) eqn:Hcmp.
  - apply Z.ltb_lt in Hcmp. constructor; [by constructor|].
    constructor. unfold keyLe. lia.
  - apply Z.ltb_ge in Hcmp. constructor; [done|].
    apply insertEntry_HdRel; [|done].
    by apply localeCompare_flip.
Qed.

Lemma sortEntries_Sorted (l : list (jsstr * MonthStat)) :
  Sorted keyLe (sortEntries l).
Proof.
  unfold sortEntries.
  induction l as [|x l IH] using rev_ind; [constructor|].
  rewrite fold_left_app. by apply insertEntry_Sorted.
Qed.

Lemma keyLe_trans : Relations_1.Transitive keyLe.
Proof. intros x y z. apply localeCompare_trans. Qed.

(** *** The month key *)

Lemma split_length (p : N -> bool) (s : jsstr) :
  length (split p s) = S (length (List.filter p s)).
Proof.
  unfold split. induction s as [|c s IH]; [done|].
  cbn [splitPieces List.filter].
  destruct (splitPieces p s) as [piece rest]. destruct (p c); simpl in *; lia.
Qed.

Lemma splitPieces_free (s : jsstr) :
  sepFree s = true -> splitPieces isDashOrSlash s = (s, []).
Proof.
  induction s as [|c s IH]; [done|].
  cbn [sepFree forallb splitPieces]. intros [Hc Hs]%andb_true_iff.
  rewrite IH by done. apply negb_true_iff in Hc. by rewrite Hc.
Qed.

Lemma splitPieces_sep (x : jsstr) (c : N) (y : jsstr) :
  sepFree x = true -> isDashOrSlash c = true ->
  splitPieces isDashOrSlash (x ++ c :: y)
  = (x, (splitPieces isDashOrSlash y).1 :: (splitPieces isDashOrSlash y).2).
Proof.
  intros Hx Hc. induction x as [|a x IH].
  - cbn [app splitPieces]. destruct (splitPieces isDashOrSlash y). by rewrite Hc.
  - cbn [sepFree forallb] in Hx. apply andb_true_iff in Hx as [Ha Hx].
    cbn [app splitPieces]. rewrite IH by done.
    apply negb_true_iff in Ha. by rewrite Ha.
Qed.

Lemma monthYear_three_parts (r : ParsedRow) (p0 p1 p2 : jsstr) (s1 s2 : N) :
  dateStr r = p0 ++ s1 :: p1 ++ s2 :: p2 ->
  isDashOrSlash s1 = true -> isDashOrSlash s2 = true ->
  sepFree p0 = true -> sepFree p1 = true -> sepFree p2 = true ->
  monthYear r = if (length p0 =? 4)%nat then p0 ++ js "-" ++ p1 else p2 ++ js "-" ++ p1.
Proof.
  intros Hd Hs1 Hs2 H0 H1 H2. unfold monthYear. fold (dateStr r). rewrite Hd.
  unfold split. rewrite splitPieces_sep, splitPieces_sep, splitPieces_free by done.
  reflexivity.
Qed.

Lemma monthYear_other_shape (r : ParsedRow) :
  length (List.filter isDashOrSlash (dateStr r)) <> 2%nat ->
  monthYear r = js "Desconocido".
Proof.
  intros Hn. unfold monthYear. fold (dateStr r).
  pose proof (split_length isDashOrSlash (dateStr r)) as Hlen.
  destruct (split isDashOrSlash (dateStr r)) as [|p0 [|p1 [|p2 [|p3 rest]]]];
    try done.
  simpl in Hlen. lia.
Qed.

(** C8.  The bucket of a record is named after [fecha_val] cut at dashes
    and slashes: with three parts, the first and the second when the first
    has four characters, the third and the second otherwise; with any other
    number of parts, [Desconocido].  The result lists each bucket once, in
    ascending order of the names for [localeCompare]; a bucket exists for
    the names of the records and holds their number and the sum of their
    parsed amounts.  Two records of 15/03/2024 and 20/03/2024 with amounts
    1000 and 2000 give the single bucket 2024-03 with count 2 and total
    3000. *)
Theorem monthly_stats (records : list ParsedRow) :
  (forall r p0 p1 p2 s1 s2,
      dateStr r = p0 ++ s1 :: p1 ++ s2 :: p2 ->
      isDashOrSlash s1 = true -> isDashOrSlash s2 = true ->
      sepFree p0 = true -> sepFree p1 = true -> sepFree p2 = true ->
      monthYear r
      = if (length p0 =? 4)%nat then p0 ++ js "-" ++ p1 else p2 ++ js "-" ++ p1)
  /\ (forall r,
      length (split isDashOrSlash (dateStr r)) <> 3%nat ->
      monthYear r = js "Desconocido")
  /\ (forall s,
      length (split isDashOrSlash s) = S (length (List.filter isDashOrSlash s)))
  /\ StronglySorted keyLe (MonthlyStats records)
  /\ NoDup (MonthlyStats records).*1
  /\ (forall k b,
      (k, b) ∈ MonthlyStats records
      <-> recordsOf k records <> [] /\ b = bucketOf k records)
  /\ MonthlyStats [march15; march20]
     = [(js "2024-03", {| count := 2; total := 3000 |})].
Proof.
  split; [apply monthYear_three_parts|].
  split.
  { intros r Hn. apply monthYear_other_shape. rewrite split_length in Hn. lia. }
  split; [apply split_length|].
  split.
  { apply Sorted_StronglySorted; [apply keyLe_trans | apply sortEntries_Sorted]. }
  assert (Hnd : NoDup (MonthlyStats records).*1).
  { unfold MonthlyStats. rewrite sortEntries_Permutation. apply groupByMonth_NoDup. }
  split; [done|]. split.
  - intros k b. unfold MonthlyStats. rewrite sortEntries_Permutation.
    rewrite bucketAt_elem_of by apply groupByMonth_NoDup.
    rewrite groupByMonth_bucketAt.
    destruct (decide (recordsOf k records = [])) as [Hz|Hnz]; naive_solver.
  - by vm_compute.
Qed.

End Monthly.

(** ** Worked examples *)

(** The normalizers on the texts of the specification. *)
Example normalizers_examples `{JSHost} :
  normalizeRut (Some (js "12.345.678-5")) = js "123456785"
  /\ normalizeInvoice (Some (js "00042")) = js "42"
  /\ parseAmount (Some (js "$1.234.567")) = 1234567
  /\ parseAmount (Some []) = 0.
Proof.
  rewrite (normalizeRut_ascii (H:=H)) by (by vm_compute).
  repeat split; by vm_compute.
Qed.

(** Invoice 0 is rejected, invoice 1045 accepted, a credit note rejected. *)
Example validator_examples `{JSHost} :
  isValidDataRow (acmeRow (js "0") (js "33")) plainMapping = false
  /\ isValidDataRow (acmeRow (js "1045") (js "33")) plainMapping = true
  /\ isValidDataRow (acmeRow (js "1045") (js "61")) plainMapping = false.
Proof.
  rewrite !(isValidDataRow_ascii (H:=H)) by (by vm_compute).
  repeat split; by vm_compute.
Qed.

(** A row of report furniture, under the reference host. *)
Example report_title_rejected :
  @isValidDataRow asciiHost
    (<[js "nombre" := js "Totales del per" ++ [237%N] ++ js "odo"]>
       (acmeRow (js "1045") (js "33"))) plainMapping = false.
Proof. by vm_compute. Qed.

(** The mapped rows of the examples do not depend on the host. *)
Lemma mapRow_acme `{JSHost} (idx : nat) (factura tipo : jsstr) :
  mapRow plainMapping idx (acmeRow factura tipo)
  = @mapRow asciiHost plainMapping idx (acmeRow factura tipo).
Proof.
  unfold mapRow.
  replace (cell (acmeRow factura tipo) plainMapping (js "rut"))
    with (Some (js "12345678-5")) by (by vm_compute).
  by rewrite (normalizeRut_ascii (H:=H)) by (by vm_compute).
Qed.

(** One Softland row, no Control row: the row is missing. *)
Example end_to_end `{JSHost} :
  exists r,
    analysis (runAnalysis acmeSession) = Some r
    /\ missingCount r = 1
    /\ missingAmount r = Some 10000
    /\ matchedCount r = 0.
Proof.
  unfold runAnalysis, acmeSession, processRows. cbn [softlandFile controlFile data acmeFile
    softlandMapping controlMapping imap List.filter].
  rewrite mapRow_acme.
  rewrite (isValidDataRow_ascii (H:=H)) by (by vm_compute).
  eexists. split; [reflexivity|]. repeat split; by vm_compute.
Qed.

(** A row that occurs twice in Softland and not in Control is missing
    twice. *)
Example duplicates_kept :
  missingRecords (reconcile [missing100; missing100] [control0100])
  = [missing100; missing100]
  /\ missingRecords (reconcile [missing100; control0100; missing100] [control0100])
     = [missing100; missing100].
Proof. split; by vm_compute. Qed.

(** The document-type rule on some codes. *)
Example tipo_rule_examples :
  tipoExcluded (js "33") = false
  /\ tipoExcluded (js "33.0") = false
  /\ tipoExcluded (js "61.0") = true
  /\ tipoExcluded (js "nota de credito") = true
  /\ tipoExcluded (js "factura") = false.
Proof. repeat split; by vm_compute. Qed.

(** The characters that [trim] removes. *)
Example whitespace_examples :
  isWhiteSpace 32 = true /\ isWhiteSpace 9 = true /\ isWhiteSpace 160 = true
  /\ isWhiteSpace 8200 = true /\ isWhiteSpace 65279 = true
  /\ isWhiteSpace 48 = false /\ isWhiteSpace 95 = false
  /\ trim (js "  12.345.678-5 ") = js "12.345.678-5".
Proof. repeat split; by vm_compute. Qed.

(** C2 at the session of the example: both files are loaded. *)
Lemma analysis_invariants_witness :
  softlandFile acmeSession = Some (acmeFile [acmeRow (js "1") (js "33")])
  /\ controlFile acmeSession = Some (acmeFile [])
  /\ exists r,
      analysis (@runAnalysis asciiHost acmeSession) = Some r
      /\ missingCount r = Z.of_nat (length (missingRecords r))
      /\ Forall (fun m => rowKey m ∉ rowKey <$> controlRecords r) (missingRecords r)
      /\ matchedCount r + missingCount r = softlandTotal r
      /\ softlandTotal r
         = Z.of_nat (length (@processRows asciiHost
                               (data (acmeFile [acmeRow (js "1") (js "33")]))
                               (softlandMapping acmeSession))).
Proof.
  split; [reflexivity|]. split; [reflexivity|].
  apply (analysis_invariants (H:=asciiHost) acmeSession
           (acmeFile [acmeRow (js "1") (js "33")]) (acmeFile [])); reflexivity.
Defined.

(** C9 at two rows that differ in their date only. *)
Lemma validity_ignores_date_witness :
  acmeRowRedated <> acmeRow (js "1045") (js "33")
  /\ @isValidDataRow asciiHost (acmeRow (js "1045") (js "33")) plainMapping
     = @isValidDataRow asciiHost acmeRowRedated plainMapping.
Proof.
  split.
  - intros Heq. apply (f_equal (fun row => row !! js "fecha")) in Heq.
    vm_compute in Heq. discriminate Heq.
  - apply (validity_ignores_date (H:=asciiHost)); reflexivity.
Defined.
(** * Further code of index.tsx *)

(** The functions of [index.tsx] that the properties above leave out: the
    comparison modal, the search for the header row, the pages and the
    selection of the table; then further properties of the whole. *)

(** ** ComparisonModal *)

(** [controlData.find(c => normalizeInvoice(c['factura_val']) === targetInv)] *)
Definition candidate (record : ParsedRow) (controlData : list ParsedRow) : option ParsedRow :=
  let targetInv := normalizeInvoice (record !! js "factura_val") in
  List.find (fun c => streq (normalizeInvoice (c !! js "factura_val")) targetInv)
            controlData.

(** The value of [match] for the field [key]: strict equality, replaced by
    the comparison of the normalized values for the tax identifier, the
    amount and the invoice number. *)
Definition fieldMatch `{JSHost} (record cand : ParsedRow) (key : jsstr) : bool :=
  let valA := record !! key in
  let valB := cand !! key in
  let match0 := bool_decide (valA = valB) in
  let match1 :=
    if streq key (js "rut_val")
    then streq (normalizeRut valA) (normalizeRut valB) else match0 in
  let match2 :=
    if streq key (js "monto_val")
    then bool_decide (parseAmount valA = parseAmount valB) else match1 in
  if streq key (js "factura_val")
  then streq (normalizeInvoice valA) (normalizeInvoice valB) else match2.

(** ** FileUploader: the header row *)

Definition HEADER_KEYWORDS : list jsstr :=
  [ js "fecha"; js "factura"; js "documento"; js "numero"; js "rut";
    js "proveedor"; js "monto"; js "total"; js "debe"; js "haber"; js "tipo" ].

(** [matchCount] after the [forEach] over the keywords; [stringify] is
    [JSON.stringify] on the rows of a sheet, a host function. *)
Definition matchCount `{JSHost} {SheetRow : Type} (stringify : SheetRow -> jsstr)
    (row : SheetRow) : nat :=
  length (List.filter (fun kw => includes (toLowerCase (stringify row)) kw)
                      HEADER_KEYWORDS).

(** The loop from index [i] over the rows left to visit. *)
Fixpoint findHeaderFrom `{JSHost} {SheetRow : Type} (stringify : SheetRow -> jsstr)
    (i : nat) (rows : list SheetRow) : option nat :=
  match rows with
  | [] => None
  | row :: rest =>
      if (2 <=? matchCount stringify row)%nat then Some i
      else findHeaderFrom stringify (S i) rest
  end.

(** [findHeaderRow]: the loop visits the first [Math.min(rows.length, 20)]
    rows and 0 is returned when it ends. *)
Definition findHeaderRow `{JSHost} {SheetRow : Type} (stringify : SheetRow -> jsstr)
    (rows : list SheetRow) : nat :=
  default 0%nat (findHeaderFrom stringify 0 (take 20 rows)).

(** ** DataTable: pages, selection, displayed status *)

Definition itemsPerPage : nat := 50.

(** [l.slice(a, b)] for indices that are not negative. *)
Definition slice {A} (a b : nat) (l : list A) : list A := take (b - a) (drop a l).

(** [Math.ceil(processedData.length / itemsPerPage)] *)
Definition totalPages {A} (processedData : list A) : nat :=
  if (length processedData mod itemsPerPage =? 0)%nat
  then length processedData / itemsPerPage
  else S (length processedData / itemsPerPage).

(** The rows of the page [currentPage], counted from 1. *)
Definition currentData {A} (processedData : list A) (currentPage : nat) : list A :=
  slice ((currentPage - 1) * itemsPerPage) (currentPage * itemsPerPage) processedData.

(** [selectedRows] holds what [row['_key']] gave, a string or [undefined]. *)
Definition toggleSelectRow (selectedRows : gset (option jsstr)) (id : jsstr)
    : gset (option jsstr) :=
  if decide (Some id ∈ selectedRows)
  then selectedRows ∖ {[Some id]}
  else selectedRows ∪ {[Some id]}.

Definition toggleSelectAll (selectedRows : gset (option jsstr)) (page : list ParsedRow)
    : gset (option jsstr) :=
  if decide (size selectedRows = length page)
  then ∅
  else selectedRows ∪ list_to_set (rowKey <$> page).

(** [Array.from(selectedRows)], as the keys that the handlers write. *)
Definition selectedIds (selectedRows : gset (option jsstr)) : list jsstr :=
  propKey <$> elements selectedRows.

(** [row['_key'] || `${idx}`] *)
Definition rowId (row : ParsedRow) (idx : nat) : jsstr :=
  orElse (rowKey row) (numberToString (Z.of_nat idx)).

(** [auditState?.[rowId] || 'pending'] *)
Definition rowStatus (auditState : gmap jsstr AuditStatus) (row : ParsedRow) (idx : nat)
    : AuditStatus :=
  default pending (auditState !! rowId row idx).

(** ** Notions used in the statements *)

(** The number that the decimal digits [u] continue from [acc]. *)
Fixpoint uintValue (acc : Z) (u : Decimal.uint) : Z :=
  match u with
  | Decimal.Nil => acc
  | Decimal.D0 u => uintValue (acc * 10 + 0) u
  | Decimal.D1 u => uintValue (acc * 10 + 1) u
  | Decimal.D2 u => uintValue (acc * 10 + 2) u
  | Decimal.D3 u => uintValue (acc * 10 + 3) u
  | Decimal.D4 u => uintValue (acc * 10 + 4) u
  | Decimal.D5 u => uintValue (acc * 10 + 5) u
  | Decimal.D6 u => uintValue (acc * 10 + 6) u
  | Decimal.D7 u => uintValue (acc * 10 + 7) u
  | Decimal.D8 u => uintValue (acc * 10 + 8) u
  | Decimal.D9 u => uintValue (acc * 10 + 9) u
  end.

(** The amount that the mapper reads in the raw row. *)
Definition rawAmount (mapping : Mapping) (row : ParsedRow) : Z :=
  parseAmount (Some (orElse (cell row mapping (js "monto")) (js "0"))).

(** The status that the automatic check writes for a key, if any. *)
Definition autoStatus (result : AnalysisResult) (id : jsstr) : option AuditStatus :=
  autoVerdict result <$> locate result id.

(** ** Data of the examples *)

(** A raw row of the examples with its own tax identifier. *)
Definition ledgerRow (rut factura : jsstr) : ParsedRow :=
  <[js "rut" := rut]> (acmeRow factura (js "33")).

(** Softland has invoice 100 of one supplier, Control invoice 0100 of
    another. *)
Definition softland100 : list ParsedRow := [ledgerRow (js "11.111.111-1") (js "100")].

Definition control100 : list ParsedRow := [ledgerRow (js "22.222.222-2") (js "0100")].

(** A mapping in which the invoice field has no column. *)
Definition noFacturaMapping : Mapping := delete (js "factura") plainMapping.

(** The date of [march15], year first. *)
Definition march15iso : ParsedRow :=
  <[js "fecha_val" := js "2024-03-15"]> (<[js "monto_val" := js "1000"]> ∅).

(** * Further properties *)

(** ** Amounts written and read back *)

Lemma js_String (a : ascii) (s : string) : js (String a s) = N_of_ascii a :: js s.
Proof. reflexivity. Qed.

Lemma of_uint_acc_value (u : Decimal.uint) (acc : positive) :
  Z.pos (Pos.of_uint_acc u acc) = uintValue (Z.pos acc) u.
Proof.
  revert acc. induction u; intros acc; cbn [Pos.of_uint_acc uintValue];
    [done | rewrite IHu; f_equal; lia ..].
Qed.

Lemma of_uint_value (u : Decimal.uint) : Z.of_uint u = uintValue 0 u.
Proof.
  unfold Z.of_uint.
  induction u; cbn [Pos.of_uint uintValue Z.of_N]; try done;
    rewrite of_uint_acc_value; reflexivity.
Qed.

Lemma parseDigits_uint (u : Decimal.uint) (acc : Z) :
  parseDigits 10 (Some acc) (js (NilEmpty.string_of_uint u)) = Some (uintValue acc u).
Proof.
  revert acc. induction u; intros acc;
    cbn [NilEmpty.string_of_uint uintValue]; [done | rewrite js_String; apply IHu ..].
Qed.

Lemma parseDigits_uint_start (u : Decimal.uint) :
  u <> Decimal.Nil ->
  parseDigits 10 None (js (NilEmpty.string_of_uint u)) = Some (uintValue 0 u).
Proof.
  destruct u; [done | intros _; cbn [NilEmpty.string_of_uint uintValue];
                      rewrite js_String; apply parseDigits_uint ..].
Qed.

Lemma parseDigits_to_uint (p : positive) :
  parseDigits 10 None (js (NilEmpty.string_of_uint (Pos.to_uint p))) = Some (Z.pos p).
Proof.
  rewrite parseDigits_uint_start by apply DecimalPos.Unsigned.to_uint_nonnil.
  rewrite <- of_uint_value. unfold Z.of_uint.
  by rewrite DecimalPos.Unsigned.of_to.
Qed.

Lemma uint_digits (u : Decimal.uint) :
  forallb isDigit (js (NilEmpty.string_of_uint u)) = true.
Proof.
  induction u; cbn [NilEmpty.string_of_uint];
    [done | rewrite js_String; cbn [forallb]; rewrite IHu; reflexivity ..].
Qed.

Lemma isDigit_cases (c : N) :
  isDigit c = true ->
  isWhiteSpace c = false /\ c <> 45%N /\ c <> 43%N /\ (c =? 120)%N = false
  /\ (c =? 88)%N = false /\ isAmountChar c = true /\ isDot c = false.
Proof.
  unfold isDigit. intros [H1 H2]%andb_true_iff. apply N.leb_le in H1, H2.
  assert (Hc : (c = 48 \/ c = 49 \/ c = 50 \/ c = 51 \/ c = 52 \/ c = 53
                \/ c = 54 \/ c = 55 \/ c = 56 \/ c = 57)%N) by lia.
  repeat (destruct Hc as [-> | Hc]; [by repeat split|]). by subst.
Qed.

Lemma filter_digits (p : N -> bool) (ds : jsstr) :
  (forall c, isDigit c = true -> p c = true) ->
  forallb isDigit ds = true -> List.filter p ds = ds.
Proof.
  intros Hp. induction ds as [|c ds IH]; [done|].
  cbn [forallb List.filter]. intros [Hc Hds]%andb_true_iff.
  by rewrite (Hp c Hc), IH.
Qed.

Lemma parseSign_digits (c : N) (ds : jsstr) :
  isDigit c = true -> parseSign (trimStart (c :: ds)) = (1, c :: ds).
Proof.
  intros (Hws & H45 & H43 & _)%isDigit_cases.
  unfold trimStart. cbn [dropWhile]. rewrite Hws. unfold parseSign.
  destruct c as [|p]; [done|].
  repeat (destruct p as [p|p|]; try done).
Qed.

Lemma parseInt10_digits (ds : jsstr) :
  ds <> [] -> forallb isDigit ds = true ->
  parseInt10 ds = parseDigits 10 None ds
  /\ parseInt10 (45%N :: ds) = Z.opp <$> parseDigits 10 None ds.
Proof.
  destruct ds as [|c ds]; [done|]. intros _ [Hc _]%andb_true_iff. split.
  - unfold parseInt10. rewrite parseSign_digits by done.
    destruct (parseDigits 10 None (c :: ds)); [|done]. cbn; f_equal; lia.
  - unfold parseInt10. cbn. destruct (parseDigits 10 None (c :: ds)); [|done].
    cbn; f_equal; lia.
Qed.

Lemma parseInt_digits (ds : jsstr) :
  ds <> [] -> forallb isDigit ds = true ->
  parseInt ds = parseDigits 10 None ds
  /\ parseInt (45%N :: ds) = Z.opp <$> parseDigits 10 None ds.
Proof.
  destruct ds as [|c ds]; [done|]. intros _ Hall.
  pose proof Hall as [Hc Hds]%andb_true_iff.
  assert (Hbody : forall sign,
    match c :: ds with
    | 48%N :: x :: s'' =>
        if ((x =? 120) || (x =? 88))%N
        then (fun n => sign * n) <$> parseDigits 16 None s''
        else (fun n => sign * n) <$> parseDigits 10 None (c :: ds)
    | _ => (fun n => sign * n) <$> parseDigits 10 None (c :: ds)
    end = (fun n => sign * n) <$> parseDigits 10 None (c :: ds)).
  { intros sign. destruct ds as [|x ds].
    - destruct c as [|p]; [done|]. repeat (destruct p as [p|p|]; try done).
    - cbn [forallb] in Hds. apply andb_true_iff in Hds as [Hx _].
      apply isDigit_cases in Hx as (_ & _ & _ & -> & -> & _).
      destruct c as [|p]; [done|]. repeat (destruct p as [p|p|]; try done). }
  split.
  - unfold parseInt. rewrite parseSign_digits by done. rewrite Hbody.
    destruct (parseDigits 10 None (c :: ds)); [|done]. cbn; f_equal; lia.
  - unfold parseInt. change (parseSign (trimStart (45%N :: c :: ds))) with (-1, c :: ds).
    cbv iota beta. rewrite Hbody.
    destruct (parseDigits 10 None (c :: ds)); [|done]. cbn; f_equal; lia.
Qed.

Lemma numberToString_pos (p : positive) :
  numberToString (Z.pos p) = js (NilEmpty.string_of_uint (Pos.to_uint p))
  /\ numberToString (Z.neg p) = 45%N :: js (NilEmpty.string_of_uint (Pos.to_uint p)).
Proof.
  unfold numberToString. cbn [Z.to_int NilZero.string_of_int].
  pose proof (DecimalPos.Unsigned.to_uint_nonnil p) as Hnil.
  destruct (Pos.to_uint p); [done | by rewrite ?js_String ..].
Qed.

Lemma to_uint_digits (p : positive) :
  js (NilEmpty.string_of_uint (Pos.to_uint p)) <> []
  /\ forallb isDigit (js (NilEmpty.string_of_uint (Pos.to_uint p))) = true.
Proof.
  split; [|apply uint_digits].
  pose proof (DecimalPos.Unsigned.to_uint_nonnil p) as Hnil.
  destruct (Pos.to_uint p); done.
Qed.

Lemma parseAmount_nonempty (s : jsstr) :
  s <> [] ->
  parseAmount (Some s)
  = orZero (parseInt10 (removeAll isDot (List.filter isAmountChar s))).
Proof. by destruct s. Qed.

Lemma amountChars_digits (ds : jsstr) :
  forallb isDigit ds = true ->
  removeAll isDot (List.filter isAmountChar ds) = ds
  /\ removeAll isDot (List.filter isAmountChar (45%N :: ds)) = 45%N :: ds.
Proof.
  intros Hdig.
  assert (H1 : List.filter isAmountChar ds = ds).
  { apply filter_digits; [|done]. intros ? ?%isDigit_cases. tauto. }
  assert (H2 : removeAll isDot ds = ds).
  { apply filter_digits; [|done]. by intros ? (_&_&_&_&_&_& ->)%isDigit_cases. }
  split.
  - by rewrite H1.
  - cbn [List.filter]. change (isAmountChar 45) with true. cbv iota.
    rewrite H1. unfold removeAll in *. cbn [List.filter].
    change (negb (isDot 45)) with true. cbv iota. by rewrite H2.
Qed.

Lemma numberToString_reads (n : Z) :
  parseInt (numberToString n) = Some n
  /\ parseInt10 (numberToString n) = Some n
  /\ parseAmount (Some (numberToString n)) = n.
Proof.
  destruct n as [|p|p]; [by vm_compute| |].
  - destruct (numberToString_pos p) as [-> _].
    destruct (to_uint_digits p) as [Hne Hdig].
    destruct (parseInt_digits _ Hne Hdig) as [-> _].
    destruct (parseInt10_digits _ Hne Hdig) as [Hp10 _].
    destruct (amountChars_digits _ Hdig) as [Hclean _].
    rewrite parseAmount_nonempty, Hclean, Hp10, parseDigits_to_uint by done.
    done.
  - destruct (numberToString_pos p) as [_ ->].
    destruct (to_uint_digits p) as [Hne Hdig].
    destruct (parseInt_digits _ Hne Hdig) as [_ ->].
    destruct (parseInt10_digits _ Hne Hdig) as [_ Hp10].
    destruct (amountChars_digits _ Hdig) as [_ Hclean].
    rewrite parseAmount_nonempty, Hclean, Hp10, parseDigits_to_uint by done.
    done.
Qed.


(** ** The rows that the mapper builds *)

Ltac mapRow_lookup :=
  unfold mapRow;
  repeat (rewrite lookup_insert_ne by (by vm_compute));
  by rewrite lookup_insert_eq.

Section Pipeline.

Context `{H : JSHost}.

Lemma mapRow_monto (mapping : Mapping) (idx : nat) (row : ParsedRow) :
  mapRow mapping idx row !! js "monto_val"
  = Some (numberToString (rawAmount mapping row)).
Proof. mapRow_lookup. Qed.

Lemma mapRow_rut (mapping : Mapping) (idx : nat) (row : ParsedRow) :
  mapRow mapping idx row !! js "rut_val"
  = Some (orElse (cell row mapping (js "rut")) []).
Proof. mapRow_lookup. Qed.

Lemma mapRow_factura (mapping : Mapping) (idx : nat) (row : ParsedRow) :
  mapRow mapping idx row !! js "factura_val"
  = Some (orElse (cell row mapping (js "factura")) []).
Proof. mapRow_lookup. Qed.

Lemma mapRow_nombre (mapping : Mapping) (idx : nat) (row : ParsedRow) :
  mapRow mapping idx row !! js "nombre_val"
  = Some (orElse (cell row mapping (js "nombre")) []).
Proof. mapRow_lookup. Qed.

Lemma processRows_elem (rows : list ParsedRow) (mapping : Mapping) (r : ParsedRow) :
  r ∈ processRows rows mapping <->
  (exists idx row, rows !! idx = Some row /\ r = mapRow mapping idx row)
  /\ isValidDataRow r valMapping = true.
Proof.
  unfold processRows. rewrite list_elem_of_In, filter_In, <- list_elem_of_In.
  rewrite elem_of_lookup_imap. naive_solver.
Qed.

Lemma normalizeRut_orElse (x : option jsstr) :
  normalizeRut (Some (orElse x [])) = normalizeRut x.
Proof. by destruct x as [[|c s]|]. Qed.

Lemma normalizeInvoice_orElse (x : option jsstr) :
  normalizeInvoice (Some (orElse x [])) = normalizeInvoice x.
Proof. by destruct x as [[|c s]|]. Qed.

(** Every mapped row carries the key of its own [rut_val] and
    [factura_val]. *)
Lemma mapRow_key (mapping : Mapping) (idx : nat) (row : ParsedRow) :
  let r := mapRow mapping idx row in
  rowKey r = Some (normalizeRut (r !! js "rut_val") ++ js "_"
                   ++ normalizeInvoice (r !! js "factura_val")).
Proof.
  cbv zeta. rewrite rowKey_mapRow, mapRow_rut, mapRow_factura.
  by rewrite normalizeRut_orElse, normalizeInvoice_orElse.
Qed.

Lemma dropWhile_none (p : N -> bool) (s : jsstr) :
  forallb (fun c => negb (p c)) s = true -> dropWhile p s = s.
Proof.
  destruct s as [|c s]; [done|]. cbn [forallb dropWhile].
  intros [Hc _]%andb_true_iff. apply negb_true_iff in Hc. by rewrite Hc.
Qed.

Lemma trim_none (s : jsstr) :
  forallb (fun c => negb (isWhiteSpace c)) s = true -> trim s = s.
Proof.
  intros Hs. unfold trim, trimStart, trimEnd.
  rewrite (dropWhile_none _ s) by done.
  rewrite dropWhile_none by (by rewrite forallb_rev).
  apply rev_involutive.
Qed.

Lemma forallb_impl (p q : N -> bool) (s : jsstr) :
  (forall c, p c = true -> q c = true) ->
  forallb p s = true -> forallb q s = true.
Proof.
  intros Hpq. induction s as [|c s IH]; [done|]. cbn [forallb].
  intros [Hc Hs]%andb_true_iff. by rewrite (Hpq c Hc), IH.
Qed.

Lemma numberToString_no_space (n : Z) :
  forallb (fun c => negb (isWhiteSpace c)) (numberToString n) = true.
Proof.
  assert (Hdig : forall ds, forallb isDigit ds = true ->
                            forallb (fun c => negb (isWhiteSpace c)) ds = true).
  { intros ds. apply forallb_impl. by intros c (-> & _)%isDigit_cases. }
  destruct n as [|p|p]; [done| |].
  - destruct (numberToString_pos p) as [-> _]. apply Hdig, uint_digits.
  - destruct (numberToString_pos p) as [_ ->]. cbn [forallb].
    by rewrite Hdig by apply uint_digits.
Qed.


Lemma field_monto_val (mapping : Mapping) (idx : nat) (row : ParsedRow) :
  field (mapRow mapping idx row) valMapping (js "monto")
  = numberToString (rawAmount mapping row).
Proof.
  unfold field, cell.
  replace (propKey (valMapping !! js "monto")) with (js "monto_val") by (by vm_compute).
  rewrite mapRow_monto.
  assert (Hne : numberToString (rawAmount mapping row) <> []).
  { intros Hnil. destruct (numberToString_reads (rawAmount mapping row)) as (Hp & _).
    rewrite Hnil in Hp. by vm_compute in Hp. }
  destruct (numberToString (rawAmount mapping row)) as [|c s] eqn:Hs; [done|].
  cbn [orElse]. rewrite <- Hs. apply trim_none, numberToString_no_space.
Qed.



End Pipeline.

(** ** The analysis of a run *)

Section Run.

Context `{H : JSHost}.






Lemma processed_rowKey (rows : list ParsedRow) (mapping : Mapping) (r : ParsedRow) :
  r ∈ processRows rows mapping ->
  rowKey r = Some (normalizeRut (r !! js "rut_val") ++ js "_"
                   ++ normalizeInvoice (r !! js "factura_val")).
Proof.
  intros [(idx & row & _ & ->) _]%processRows_elem. apply mapRow_key.
Qed.

(** X4.  Every row kept by [processRows] carries a matching key, and the key
    is the one of its own fields: the normalized [rut_val], an underscore,
    the normalized [factura_val]; so two kept rows have the same key exactly
    when they agree on both normalized fields. *)
Theorem processed_key (rows : list ParsedRow) (mapping : Mapping) (r : ParsedRow) :
  r ∈ processRows rows mapping ->
  rowKey r = Some (normalizeRut (r !! js "rut_val") ++ js "_"
                   ++ normalizeInvoice (r !! js "factura_val"))
  /\ (forall rows' mapping' r',
        r' ∈ processRows rows' mapping' ->
        normalizeRut (r' !! js "rut_val") = normalizeRut (r !! js "rut_val") ->
        normalizeInvoice (r' !! js "factura_val")
        = normalizeInvoice (r !! js "factura_val") ->
        rowKey r' = rowKey r).
Proof.
  intros Hr. split; [by apply (processed_rowKey rows mapping)|].
  intros rows' mapping' r' Hr' Hrut Hinv.
  rewrite (processed_rowKey rows mapping r Hr), (processed_rowKey rows' mapping' r' Hr').
  by rewrite Hrut, Hinv.
Qed.

End Run.

(** ** How reconciliations compose *)

Lemma filter_all {A} (P : A -> Prop) `{!forall x, Decision (P x)} (l : list A) :
  (forall x, x ∈ l -> P x) -> filter P l = l.
Proof.
  induction l as [|x l IH]; intros Hl; [done|].
  rewrite filter_cons_True by apply Hl, list_elem_of_here.
  f_equal. apply IH. intros y Hy. by apply Hl, list_elem_of_further.
Qed.

Lemma filter_none {A} (P : A -> Prop) `{!forall x, Decision (P x)} (l : list A) :
  (forall x, x ∈ l -> ~ P x) -> filter P l = [].
Proof.
  induction l as [|x l IH]; intros Hl; [done|].
  rewrite filter_cons_False by apply Hl, list_elem_of_here.
  apply IH. intros y Hy. by apply Hl, list_elem_of_further.
Qed.

Lemma missing_filter_filter (S C1 C2 : list ParsedRow) :
  missingRecords (reconcile S (C1 ++ C2))
  = missingRecords (reconcile (missingRecords (reconcile S C1)) C2).
Proof.
  rewrite !missingRecords_reconcile, list_filter_filter.
  apply list_filter_iff. intros s. rewrite fmap_app, not_elem_of_app. tauto.
Qed.

(** X5.  Against an empty Control list every row is missing; against
    itself a list has no missing row; the missing rows of a concatenated
    Softland list are those of its parts; a further Control list only
    removes rows from the missing ones; and the missing rows depend on
    the Control list through its set of keys only. *)
Theorem reconcile_composition (S S' C C' : list ParsedRow) :
  missingRecords (reconcile S []) = S
  /\ (missingRecords (reconcile S S) = [] /\ matchedCount (reconcile S S) = softlandTotal (reconcile S S))
  /\ missingRecords (reconcile (S ++ S') C)
     = missingRecords (reconcile S C) ++ missingRecords (reconcile S' C)
  /\ missingRecords (reconcile S (C ++ C'))
     = missingRecords (reconcile (missingRecords (reconcile S C)) C')
  /\ ((forall k, k ∈ rowKey <$> C <-> k ∈ rowKey <$> C') ->
      missingRecords (reconcile S C) = missingRecords (reconcile S C')).
Proof.
  assert (Hself : missingRecords (reconcile S S) = []).
  { rewrite missingRecords_reconcile. apply filter_none.
    intros s Hs Hnot. apply Hnot, list_elem_of_fmap. by exists s. }
  split; [|split; [|split; [|split]]].
  - rewrite missingRecords_reconcile. apply filter_all.
    intros s _. apply not_elem_of_nil.
  - split; [done|].
    change (matchedCount (reconcile S S))
      with (Z.of_nat (length S) - Z.of_nat (length (missingRecords (reconcile S S)))).
    rewrite Hself. cbn. lia.
  - by rewrite !missingRecords_reconcile, filter_app.
  - apply missing_filter_filter.
  - intros Hkeys. rewrite !missingRecords_reconcile.
    apply list_filter_iff. intros s. by rewrite Hkeys.
Qed.

(** ** The comparison modal *)

Section Modal.

Context `{H : JSHost}.

Lemma candidate_Some (record cand : ParsedRow) (controlData : list ParsedRow) :
  candidate record controlData = Some cand ->
  cand ∈ controlData
  /\ normalizeInvoice (cand !! js "factura_val")
     = normalizeInvoice (record !! js "factura_val").
Proof.
  unfold candidate. intros [Hin Heq]%List.find_some.
  split; [by apply list_elem_of_In|]. by apply bool_decide_eq_true in Heq.
Qed.

(** X6.  The modal offers a Control candidate exactly when the automatic
    check would mark the record [failed]; the candidate is a Control record,
    and its invoice line always shows a match. *)
Theorem modal_candidate (result : AnalysisResult) (record : ParsedRow) :
  (is_Some (candidate record (controlRecords result))
   <-> autoVerdict result record = failed)
  /\ (forall cand, candidate record (controlRecords result) = Some cand ->
                   cand ∈ controlRecords result
                   /\ fieldMatch record cand (js "factura_val") = true).
Proof.
  split.
  - unfold autoVerdict, candidate.
    destruct (existsb _ _) eqn:Hex.
    + split; [done|]. intros _.
      apply existsb_exists in Hex as (c & Hc & Hm).
      destruct (List.find _ _) eqn:Hfind; [done|].
      pose proof (List.find_none _ _ Hfind c Hc) as Hno. cbv beta in Hno. congruence.
    + split; [|done]. intros [cand Hcand].
      apply List.find_some in Hcand as [Hin Hm].
      assert (existsb (fun c => streq (normalizeInvoice (c !! js "factura_val"))
                                      (normalizeInvoice (record !! js "factura_val")))
                      (controlRecords result) = true)
        by (apply existsb_exists; eauto).
      congruence.
  - intros cand [Hin Heq]%candidate_Some. split; [done|].
    unfold fieldMatch. cbv zeta.
    replace (streq (js "factura_val") (js "factura_val")) with true by (by vm_compute).
    unfold streq. by apply bool_decide_eq_true.
Qed.

(** X7.  After a run, the candidate that the modal shows for a missing
    record never has the tax identifier of the record: its RUT line shows a
    difference. *)
Theorem modal_candidate_other_rut (softlandRows controlRows : list ParsedRow)
    (softlandMap controlMap : Mapping) (record cand : ParsedRow) :
  let r := reconcile (processRows softlandRows softlandMap)
                     (processRows controlRows controlMap) in
  record ∈ missingRecords r ->
  candidate record (controlRecords r) = Some cand ->
  fieldMatch record cand (js "rut_val") = false.
Proof.
  cbv zeta. intros Hmiss [Hin Hinv]%candidate_Some.
  change (controlRecords (reconcile _ ?C)) with C in Hin.
  rewrite missingRecords_reconcile in Hmiss.
  apply list_elem_of_filter in Hmiss as [Habsent Hrec].
  apply processed_rowKey in Hrec as Hkr. apply processed_rowKey in Hin as Hkc.
  unfold fieldMatch. cbv zeta.
  replace (streq (js "rut_val") (js "rut_val")) with true by (by vm_compute).
  replace (streq (js "rut_val") (js "monto_val")) with false by (by vm_compute).
  replace (streq (js "rut_val") (js "factura_val")) with false by (by vm_compute).
  unfold streq. apply bool_decide_eq_false. intros Hrut.
  apply Habsent, list_elem_of_fmap. exists cand. split; [|done].
  by rewrite Hkr, Hkc, Hrut, Hinv.
Qed.

End Modal.

(** ** How the audit actions compose *)

Lemma handleAuditAction_ext (st : gmap jsstr AuditStatus) (ids ids' : list jsstr)
    (status : AuditStatus) :
  (forall k, k ∈ ids <-> k ∈ ids') ->
  handleAuditAction st ids status = handleAuditAction st ids' status.
Proof.
  intros Hset. apply map_eq. intros k. rewrite !handleAuditAction_lookup.
  destruct (decide (k ∈ ids)) as [Hin|Hin].
  - by rewrite decide_True by (by apply Hset).
  - by rewrite decide_False by (by rewrite <- Hset).
Qed.

(** X8.  A bulk update depends on the set of its keys only, not on their
    order or repetitions; doing it again changes nothing; of two successive
    updates the later one wins on the keys they share; the keys of the new
    state are those of the old one and the listed ones. *)
Theorem bulk_update_composition (st : gmap jsstr AuditStatus) (ids ids' : list jsstr)
    (s s' : AuditStatus) :
  ((forall k, k ∈ ids <-> k ∈ ids') ->
   handleAuditAction st ids s = handleAuditAction st ids' s)
  /\ handleAuditAction (handleAuditAction st ids s) ids s = handleAuditAction st ids s
  /\ (forall k,
        handleAuditAction (handleAuditAction st ids s) ids' s' !! k
        = if decide (k ∈ ids') then Some s'
          else if decide (k ∈ ids) then Some s else st !! k)
  /\ dom (handleAuditAction st ids s) = dom st ∪ list_to_set ids.
Proof.
  split; [apply handleAuditAction_ext|]. split; [|split].
  - apply map_eq. intros k. rewrite !handleAuditAction_lookup.
    by destruct (decide (k ∈ ids)).
  - intros k. by rewrite !handleAuditAction_lookup.
  - apply set_eq. intros k.
    rewrite elem_of_union, elem_of_list_to_set, !elem_of_dom, handleAuditAction_lookup.
    destruct (decide (k ∈ ids)) as [Hin|Hin]; [by intuition eauto|].
    intuition.
Qed.

(** X9.  The automatic check is two bulk updates: the selected keys whose
    record has a Control record with the same invoice number are marked
    [failed], then the other selected keys with a record are marked
    [verified].  It never writes [pending], and a second pass over the same
    keys changes nothing. *)
Theorem auto_check_as_bulk_updates (result : AnalysisResult)
    (st : gmap jsstr AuditStatus) (ids : list jsstr) :
  handleBulkAutoCheck result st ids
  = handleAuditAction
      (handleAuditAction st
         (filter (fun id => autoStatus result id = Some failed) ids) failed)
      (filter (fun id => autoStatus result id = Some verified) ids) verified
  /\ (forall k, handleBulkAutoCheck result st ids !! k = Some pending ->
                st !! k = Some pending)
  /\ handleBulkAutoCheck result (handleBulkAutoCheck result st ids) ids
     = handleBulkAutoCheck result st ids.
Proof.
  assert (Hverdict : forall record, autoVerdict result record = failed
                                    \/ autoVerdict result record = verified).
  { intros record. unfold autoVerdict. destruct (existsb _ _); auto. }
  split; [|split].
  - apply map_eq. intros k.
    rewrite handleBulkAutoCheck_lookup, !handleAuditAction_lookup.
    unfold autoStatus.
    destruct (locate result k) as [record|] eqn:Hloc.
    + destruct (decide (k ∈ ids)) as [Hin|Hin].
      * destruct (Hverdict record) as [Hv|Hv].
        -- rewrite decide_False.
           ++ rewrite decide_True; [by rewrite Hv|].
              apply list_elem_of_filter. by rewrite Hloc, <- Hv.
           ++ intros [Hk _]%list_elem_of_filter. rewrite Hloc in Hk. simpl in Hk. congruence.
        -- rewrite decide_True; [by rewrite Hv|].
           apply list_elem_of_filter. by rewrite Hloc, <- Hv.
      * rewrite !decide_False; [done| |]; by intros [_ ?]%list_elem_of_filter.
    + rewrite !decide_False; [done| |];
        intros [Hk _]%list_elem_of_filter; by rewrite Hloc in Hk.
  - intros k. rewrite handleBulkAutoCheck_lookup.
    destruct (locate result k) as [record|]; [|done].
    destruct (decide (k ∈ ids)); [|done].
    by destruct (Hverdict record) as [-> | ->].
  - apply map_eq. intros k. rewrite !handleBulkAutoCheck_lookup.
    destruct (locate result k); [|done]. by destruct (decide (k ∈ ids)).
Qed.

(** ** The count and the amount still open *)

Lemma length_filter_split {A} (p : A -> bool) (l : list A) :
  length l = (length (List.filter p l)
              + length (List.filter (fun x => negb (p x)) l))%nat.
Proof.
  induction l as [|x l IH]; [done|]. cbn [List.filter length].
  destruct (p x); cbn [negb length]; lia.
Qed.

(** X10.  When the missing records have distinct keys and every [failed]
    entry of the audit state is the key of a missing record, the count
    still open is the number of missing records that are not marked
    [failed]: the very records whose amounts make the amount still open. *)
Theorem real_missing_counts_open_records (S C : list ParsedRow)
    (st : gmap jsstr AuditStatus) :
  let result := reconcile S C in
  NoDup ((fun m => propKey (rowKey m)) <$> missingRecords result) ->
  (forall k, st !! k = Some failed ->
             exists m, m ∈ missingRecords result /\ propKey (rowKey m) = k) ->
  realMissing result st
  = Z.of_nat (length (List.filter (notFailed st) (missingRecords result))).
Proof.
  cbv zeta. intros Hnd Hdom. unfold realMissing, failedCount.
  rewrite countStatus_size.
  change (missingCount (reconcile S C))
    with (Z.of_nat (length (missingRecords (reconcile S C)))).
  set (missing := missingRecords (reconcile S C)) in *.
  rewrite (length_filter_split (notFailed st) missing).
  assert (Hfailed :
    size (filter (fun kv : jsstr * AuditStatus => kv.2 = failed) st)
    = length (List.filter (fun m => negb (notFailed st m)) missing)); [|lia].
  set (isFailed := fun m : gmap jsstr jsstr => st !! propKey (rowKey m) = Some failed).
  assert (Hfilter : List.filter (fun m => negb (notFailed st m)) missing
                    = filter isFailed missing).
  { rewrite <- filter_bool_decide. apply List.filter_ext. intros m.
    unfold notFailed. by rewrite negb_involutive. }
  rewrite Hfilter.
  rewrite <- (length_fmap (fun m => propKey (rowKey m)) (filter isFailed missing)).
  rewrite <- (size_list_to_set (C:=gset jsstr)).
  - rewrite <- size_dom. f_equal. apply set_eq. intros k.
    rewrite elem_of_dom, elem_of_list_to_set, list_elem_of_fmap.
    split.
    + intros [x Hx]. apply map_lookup_filter_Some in Hx as [Hk Hx]. cbn in Hx. subst x.
      destruct (Hdom k Hk) as (m & Hm & <-). exists m. split; [done|].
      by apply list_elem_of_filter.
    + intros (m & -> & [Hf Hm]%list_elem_of_filter). exists failed.
      by apply map_lookup_filter_Some.
  - eapply sublist_NoDup; [exact Hnd|]. apply fmap_sublist, sublist_filter.
Qed.

(** ** Nothing is lost in the monthly buckets *)

Lemma Zsum_Permutation (l l' : list Z) : l ≡ₚ l' -> Zsum l = Zsum l'.
Proof.
  induction 1 as [|x l l' _ IH|x y l|l l' l'' _ IH1 _ IH2];
    rewrite ?Zsum_cons; [done | by rewrite IH | lia | congruence].
Qed.

Lemma addToBucket_sums (k : jsstr) (amount : Z) (g : list (jsstr * MonthStat)) :
  Zsum ((fun e => count e.2) <$> addToBucket k amount g)
  = Zsum ((fun e => count e.2) <$> g) + 1
  /\ Zsum ((fun e => total e.2) <$> addToBucket k amount g)
     = Zsum ((fun e => total e.2) <$> g) + amount.
Proof.
  induction g as [|[k0 b0] g [IHc IHt]]; cbn [addToBucket].
  - change (Zsum ((fun e : jsstr * MonthStat => count e.2) <$> [])) with 0.
    change (Zsum ((fun e : jsstr * MonthStat => total e.2) <$> [])) with 0.
    rewrite !fmap_cons, !Zsum_cons. cbn [snd count total fmap list_fmap].
    change (Zsum []) with 0. split; lia.
  - destruct (streq k0 k); rewrite !fmap_cons, !Zsum_cons; cbn [snd count total].
    + split; lia.
    + rewrite IHc, IHt. split; lia.
Qed.

Lemma groupByMonth_sums (records : list ParsedRow) :
  Zsum ((fun e => count e.2) <$> groupByMonth records) = Z.of_nat (length records)
  /\ Zsum ((fun e => total e.2) <$> groupByMonth records) = Zsum (amountOf <$> records).
Proof.
  induction records as [|r records [IHc IHt]] using rev_ind; [done|].
  rewrite groupByMonth_snoc.
  destruct (addToBucket_sums (monthYear r) (amountOf r) (groupByMonth records)) as [-> ->].
  rewrite IHc, IHt, length_app, fmap_app, Zsum_app. cbn [length].
  change (Zsum (amountOf <$> [r])) with (amountOf r + 0). split; lia.
Qed.

(** X11.  The buckets lose nothing: their counts add up to the number of
    records, their totals to the sum of the parsed amounts, and there is no
    bucket only when there is no record. *)
Theorem monthly_stats_conservation `{JSHost} (records : list ParsedRow) :
  Zsum ((fun e => count e.2) <$> MonthlyStats records) = Z.of_nat (length records)
  /\ Zsum ((fun e => total e.2) <$> MonthlyStats records) = Zsum (amountOf <$> records)
  /\ (MonthlyStats records = [] <-> records = []).
Proof.
  assert (Hc : Zsum ((fun e => count e.2) <$> MonthlyStats records)
               = Z.of_nat (length records)).
  { unfold MonthlyStats.
    rewrite (Zsum_Permutation _ ((fun e => count e.2) <$> groupByMonth records))
      by apply fmap_Permutation, sortEntries_Permutation.
    apply groupByMonth_sums. }
  split; [done|]. split.
  - unfold MonthlyStats.
    rewrite (Zsum_Permutation _ ((fun e => total e.2) <$> groupByMonth records))
      by apply fmap_Permutation, sortEntries_Permutation.
    apply groupByMonth_sums.
  - split.
    + intros Hnil. rewrite Hnil in Hc. change (Zsum _) with 0 in Hc.
      destruct records; [done|]. cbn [length] in Hc. lia.
    + by intros ->.
Qed.

(** X12.  A date written year first with dashes and the same date written
    day first with slashes fall in the same bucket, named by the year and
    the month, as long as the year has four characters and the day has
    not. *)
Theorem month_key_of_both_formats (r1 r2 : ParsedRow) (year month day : jsstr) :
  sepFree year = true -> sepFree month = true -> sepFree day = true ->
  length year = 4%nat -> length day <> 4%nat ->
  dateStr r1 = year ++ js "-" ++ month ++ js "-" ++ day ->
  dateStr r2 = day ++ js "/" ++ month ++ js "/" ++ year ->
  monthYear r1 = year ++ js "-" ++ month /\ monthYear r2 = year ++ js "-" ++ month.
Proof.
  intros Hy Hm Hd Hly Hld H1 H2. split.
  - rewrite (monthYear_three_parts r1 year month day 45 45) by done.
    by rewrite Hly.
  - rewrite (monthYear_three_parts r2 day month year 47 47) by done.
    by rewrite (proj2 (Nat.eqb_neq _ _) Hld).
Qed.

(** ** Documents written differently *)

Lemma dropWhile_app_stop (p : N -> bool) (x y : jsstr) (c : N) :
  p c = false -> dropWhile p (x ++ c :: y) = dropWhile p x ++ c :: y.
Proof.
  intros Hc. induction x as [|a x IH]; cbn [app dropWhile]; [by rewrite Hc|].
  destruct (p a); [apply IH | done].
Qed.

Lemma replicate_snoc (n : nat) (c : N) : replicate n c ++ [c] = c :: replicate n c.
Proof. induction n as [|n IH]; [done|]. cbn [replicate app]. by rewrite IH. Qed.

Lemma rev_replicate (n : nat) (c : N) : rev (replicate n c) = replicate n c.
Proof.
  induction n as [|n IH]; [done|]. cbn [replicate rev].
  rewrite IH. apply replicate_snoc.
Qed.

Lemma trimEnd_zeros (n : nat) (f : jsstr) :
  trimEnd (replicate (S n) 48%N ++ f) = replicate (S n) 48%N ++ trimEnd f.
Proof.
  unfold trimEnd. rewrite rev_app_distr, rev_replicate.
  cbn [replicate]. rewrite dropWhile_app_stop by done.
  rewrite rev_app_distr.
  change (48%N :: replicate n 48%N) with (replicate (S n) 48%N).
  by rewrite rev_replicate.
Qed.

Lemma dropWhile_zeros (n : nat) (s : jsstr) :
  dropWhile isZero (replicate n 48%N ++ s) = dropWhile isZero s.
Proof. induction n as [|n IH]; [done|]. cbn [replicate app dropWhile]. apply IH. Qed.

Lemma normalizeInvoice_leading_zeros (n : nat) (f : jsstr) :
  trimStart f = f ->
  normalizeInvoice (Some (replicate n 48%N ++ f)) = normalizeInvoice (Some f).
Proof.
  intros Hf. destruct n as [|n]; [done|].
  assert (Hr : normalizeInvoice (Some f) = dropWhile isZero (trimEnd f)).
  { unfold normalizeInvoice. destruct f as [|c f]; [done|].
    unfold trim. by rewrite Hf. }
  rewrite Hr. change (replicate (S n) 48%N ++ f) with (48%N :: (replicate n 48%N ++ f)).
  cbn [normalizeInvoice]. unfold trim.
  change (trimStart (48%N :: replicate n 48%N ++ f)) with (replicate (S n) 48%N ++ f).
  by rewrite trimEnd_zeros, dropWhile_zeros.
Qed.

Lemma dropWhile_head (p : N -> bool) (s : jsstr) (c : N) (t : jsstr) :
  dropWhile p s = c :: t -> p c = false.
Proof.
  induction s as [|a s IH]; [done|]. cbn [dropWhile].
  destruct (p a) eqn:Ha; [done|]. by intros [= <- _].
Qed.

Section Keys.

Context `{H : JSHost}.

Lemma normalizeRut_dots (a b : jsstr) :
  removeAll isDotOrDash a = removeAll isDotOrDash b ->
  normalizeRut (Some a) = normalizeRut (Some b).
Proof.
  assert (Hempty : forall s, removeAll isDotOrDash s = [] -> normalizeRut (Some s) = []).
  { intros [|c s] Hs; [done|]. cbn [normalizeRut]. rewrite Hs.
    by rewrite toUpperCase_ascii. }
  intros Hab. destruct a as [|ca a].
  - symmetry. by apply Hempty.
  - destruct b as [|cb b]; [by apply Hempty|].
    cbn [normalizeRut]. by rewrite Hab.
Qed.

(** X13.  Punctuation of the tax identifier and leading zeros of the
    invoice number do not change the matching key: two raw rows whose tax
    identifiers agree once dots and dashes are removed, and whose invoice
    numbers differ by leading zeros, get the same key; and a normalized
    invoice number never starts with 0. *)
Theorem key_ignores_punctuation_and_zeros :
  (forall mapping row1 row2 idx1 idx2 rut1 rut2 inv n,
      cell row1 mapping (js "rut") = Some rut1 ->
      cell row2 mapping (js "rut") = Some rut2 ->
      removeAll isDotOrDash rut1 = removeAll isDotOrDash rut2 ->
      cell row1 mapping (js "factura") = Some (replicate n 48%N ++ inv) ->
      cell row2 mapping (js "factura") = Some inv ->
      trimStart inv = inv ->
      rowKey (mapRow mapping idx1 row1) = rowKey (mapRow mapping idx2 row2))
  /\ (forall inv c s, normalizeInvoice inv = c :: s -> c <> 48%N).
Proof.
  split.
  - intros mapping row1 row2 idx1 idx2 rut1 rut2 inv n Hr1 Hr2 Hrut Hf1 Hf2 Hinv.
    rewrite !rowKey_mapRow, Hr1, Hr2, Hf1, Hf2.
    by rewrite (normalizeRut_dots rut1 rut2), normalizeInvoice_leading_zeros.
  - intros inv c s Hn. unfold normalizeInvoice in Hn.
    destruct inv as [[|a inv]|]; try done.
    apply dropWhile_head in Hn. unfold isZero in Hn.
    by apply N.eqb_neq in Hn.
Qed.

(** ** A field without a column *)

Lemma field_val (mapping : Mapping) (idx : nat) (row : ParsedRow) (f fval : jsstr) :
  valMapping !! f = Some fval ->
  mapRow mapping idx row !! fval = Some (orElse (cell row mapping f) []) ->
  cell row mapping f = None ->
  field (mapRow mapping idx row) valMapping f = [].
Proof.
  intros Hval Hlook Hcell. unfold field, cell at 1.
  rewrite Hval. change (propKey (Some fval)) with fval.
  by rewrite Hlook, Hcell.
Qed.

(** X14.  When the invoice, tax identifier, amount or supplier field has no
    column in the mapping (and no column is named [undefined]), no row
    passes the validator: the run keeps nothing. *)
Theorem unmapped_field_keeps_nothing (rows : list ParsedRow) (mapping : Mapping) (f : jsstr) :
  f ∈ [js "factura"; js "rut"; js "monto"; js "nombre"] ->
  mapping !! f = None ->
  (forall row, row ∈ rows -> row !! js "undefined" = None) ->
  processRows rows mapping = [].
Proof.
  intros Hf Hmap Hcols.
  destruct (processRows rows mapping) as [|r rest] eqn:Hp; [done|]. exfalso.
  assert (Hr : r ∈ processRows rows mapping) by (rewrite Hp; apply list_elem_of_here).
  apply processRows_elem in Hr as [(idx & row & Hrow & ->) Hvalid].
  assert (Hcell : cell row mapping f = None).
  { unfold cell. rewrite Hmap. apply Hcols. apply list_elem_of_lookup. eauto. }
  unfold isValidDataRow in Hvalid. cbv zeta in Hvalid.
  apply checkFields_true in Hvalid
    as ((Hfa & _) & (_ & Hmo & _) & (Hno & _) & _ & _ & Hrut & _).
  set_unfold in Hf. destruct Hf as [-> | [-> | [-> | [-> | []]]]].
  - apply Hfa. apply field_val with (fval := js "factura_val");
      [by vm_compute | apply mapRow_factura | done].
  - rewrite (field_val mapping idx row (js "rut") (js "rut_val")) in Hrut;
      [| by vm_compute | apply mapRow_rut | done].
    cbn in Hrut. lia.
  - apply Hmo. rewrite field_monto_val. unfold rawAmount. by rewrite Hcell.
  - rewrite (field_val mapping idx row (js "nombre") (js "nombre_val")) in Hno;
      [| by vm_compute | apply mapRow_nombre | done].
    rewrite toLowerCase_ascii in Hno by done. cbn in Hno. lia.
Qed.

End Keys.

(** ** The header row *)

Section HeaderRow.

Context `{H : JSHost} {SheetRow : Type} (stringify : SheetRow -> jsstr).

Lemma findHeaderFrom_Some (i k : nat) (rows : list SheetRow) :
  findHeaderFrom stringify i rows = Some k ->
  exists j row, k = (i + j)%nat /\ rows !! j = Some row
                /\ (2 <= matchCount stringify row)%nat
                /\ forall j' row', (j' < j)%nat -> rows !! j' = Some row' ->
                                   (matchCount stringify row' < 2)%nat.
Proof.
  revert i. induction rows as [|row rows IH]; intros i; cbn [findHeaderFrom]; [done|].
  destruct (2 <=? matchCount stringify row)%nat eqn:Hq.
  - intros [= <-]. exists 0%nat, row. apply Nat.leb_le in Hq.
    repeat split; [lia | done | lia].
  - intros (j & r & -> & Hj & Hr & Hbefore)%IH. apply Nat.leb_gt in Hq.
    exists (S j), r. repeat split; [lia | done | done |].
    intros [|j'] row' Hlt Hrow'.
    + cbn in Hrow'. by injection Hrow' as <-.
    + apply (Hbefore j'); [lia | done].
Qed.

Lemma findHeaderFrom_None (i : nat) (rows : list SheetRow) :
  findHeaderFrom stringify i rows = None ->
  forall j row, rows !! j = Some row -> (matchCount stringify row < 2)%nat.
Proof.
  revert i. induction rows as [|row rows IH]; intros i; cbn [findHeaderFrom]; [done|].
  destruct (2 <=? matchCount stringify row)%nat eqn:Hq; [done|]. apply Nat.leb_gt in Hq.
  intros Hnone [|j] r Hr.
  - cbn in Hr. by injection Hr as <-.
  - by apply (IH _ Hnone j).
Qed.

(** X15.  The header row is looked for among the first twenty rows: the
    index returned is below 20 and within the sheet; no row before it has
    two keywords; if some row among the first twenty has two keywords the
    row returned has two, otherwise the index is 0. *)
Theorem header_row_is_first_match (rows : list SheetRow) :
  (findHeaderRow stringify rows < 20)%nat
  /\ (rows <> [] -> (findHeaderRow stringify rows < length rows)%nat)
  /\ (forall j row, (j < findHeaderRow stringify rows)%nat -> rows !! j = Some row ->
                    (matchCount stringify row < 2)%nat)
  /\ ((exists j row, (j < 20)%nat /\ rows !! j = Some row /\ (2 <= matchCount stringify row)%nat) ->
      exists row, rows !! findHeaderRow stringify rows = Some row /\ (2 <= matchCount stringify row)%nat)
  /\ ((forall j row, (j < 20)%nat -> rows !! j = Some row -> (matchCount stringify row < 2)%nat) ->
      findHeaderRow stringify rows = 0%nat).
Proof.
  unfold findHeaderRow.
  destruct (findHeaderFrom stringify 0 (take 20 rows)) as [k|] eqn:Hfind; cbn [default]; unfold id.
  - apply findHeaderFrom_Some in Hfind as (j & row & -> & Hj & Hq & Hbefore).
    cbn [Nat.add]. apply lookup_take_Some in Hj as [Hj Hlt].
    split; [done|]. split; [|split; [|split]].
    + intros _. by apply lookup_lt_Some in Hj.
    + intros j' row' Hlt' Hrow'. apply (Hbefore j'); [done|].
      apply lookup_take_Some. split; [done | lia].
    + intros _. eauto.
    + intros Hnone. specialize (Hnone j row Hlt Hj). lia.
  - pose proof (findHeaderFrom_None _ _ Hfind) as Hnone.
    split; [lia|]. split; [|split; [|split]].
    + intros Hne. destruct rows; [done|]. cbn. lia.
    + intros j row Hlt. lia.
    + intros (j & row & Hlt & Hj & Hq).
      assert (matchCount stringify row < 2)%nat; [|lia].
      apply (Hnone j). apply lookup_take_Some. by split.
    + done.
Qed.

End HeaderRow.

(** ** Pages and selection *)

Lemma take_add_app {A} (a b : nat) (l : list A) :
  take (a + b) l = take a l ++ take b (drop a l).
Proof.
  revert l. induction a as [|a IH]; intros [|x l]; cbn; try done.
  - by rewrite take_nil.
  - by rewrite IH.
Qed.

Lemma pages_concat {A} (l : list A) (n : nat) :
  concat (currentData l <$> seq 1 n) = take (n * itemsPerPage) l.
Proof.
  induction n as [|n IH]; [done|].
  rewrite seq_S, fmap_app, concat_app, IH. cbn [fmap list_fmap concat].
  rewrite app_nil_r. unfold currentData, slice.
  replace (1 + n - 1)%nat with n by lia.
  replace ((1 + n) * itemsPerPage - n * itemsPerPage)%nat with itemsPerPage by lia.
  replace (S n * itemsPerPage)%nat with (n * itemsPerPage + itemsPerPage)%nat by lia.
  by rewrite take_add_app.
Qed.

Lemma totalPages_bounds {A} (l : list A) :
  (length l <= totalPages l * itemsPerPage)%nat
  /\ (l <> [] -> ((totalPages l - 1) * itemsPerPage < length l)%nat).
Proof.
  unfold totalPages, itemsPerPage.
  pose proof (Nat.div_mod_eq (length l) 50) as Hdiv.
  pose proof (Nat.mod_upper_bound (length l) 50) as Hmod.
  destruct (length l mod 50 =? 0)%nat eqn:Hz.
  - apply Nat.eqb_eq in Hz. split; [lia|].
    intros Hne. destruct l; [done|]. cbn [length] in *. lia.
  - apply Nat.eqb_neq in Hz. split; lia.
Qed.

(** X16.  The pages split the table: put one after the other, the pages 1
    to [totalPages] give back all the rows in their order; a page has at
    most 50 rows; every page from 1 to [totalPages] has a row, and a page
    after the last is empty. *)
Theorem pages_partition {A} (processedData : list A) :
  concat (currentData processedData <$> seq 1 (totalPages processedData)) = processedData
  /\ (forall p, (length (currentData processedData p) <= 50)%nat)
  /\ (forall p, (1 <= p <= totalPages processedData)%nat ->
                currentData processedData p <> [])
  /\ (forall p, (totalPages processedData < p)%nat ->
                currentData processedData p = []).
Proof.
  destruct (totalPages_bounds processedData) as [Hup Hlow].
  split; [|split; [|split]].
  - rewrite pages_concat. by apply take_ge.
  - intros p. unfold currentData, slice. rewrite length_take.
    unfold itemsPerPage. lia.
  - intros p [Hp1 Hp2] Hnil.
    assert (Hne : processedData <> []).
    { intros ->. unfold totalPages in Hp2. cbn in Hp2. lia. }
    specialize (Hlow Hne).
    apply (f_equal length) in Hnil. unfold currentData, slice in Hnil.
    rewrite length_take, length_drop in Hnil. cbn [length] in Hnil.
    unfold itemsPerPage in *. nia.
  - intros p Hp. unfold currentData, slice.
    rewrite drop_ge; [by rewrite take_nil|]. unfold itemsPerPage in *. nia.
Qed.

Lemma elem_of_selectedIds (sel : gset (option jsstr)) (k : jsstr) :
  k ∈ selectedIds sel <-> exists x, x ∈ sel /\ propKey x = k.
Proof.
  unfold selectedIds. rewrite list_elem_of_fmap.
  setoid_rewrite elem_of_elements. naive_solver.
Qed.

(** X17.  Ticking a row twice restores the selection.  Ticking the header
    box adds every row of the page to a selection of another size; on a
    page of rows with distinct keys a second tick then empties it.  A bulk
    action on the selection gives its status to every selected row, which
    the table then displays, and to no other key. *)
Theorem selection_and_bulk_action (sel : gset (option jsstr)) (page : list ParsedRow)
    (st : gmap jsstr AuditStatus) (status : AuditStatus) :
  (forall id, toggleSelectRow (toggleSelectRow sel id) id = sel)
  /\ (size sel <> length page ->
      sel ⊆ toggleSelectAll sel page
      /\ forall row, row ∈ page -> rowKey row ∈ toggleSelectAll sel page)
  /\ (page <> [] -> NoDup (rowKey <$> page) ->
      toggleSelectAll (toggleSelectAll ∅ page) page = ∅)
  /\ (forall row idx k,
        rowKey row = Some k -> k <> [] -> rowKey row ∈ sel ->
        rowStatus (handleAuditAction st (selectedIds sel) status) row idx = status)
  /\ (forall k, (forall x, x ∈ sel -> propKey x <> k) ->
                handleAuditAction st (selectedIds sel) status !! k = st !! k).
Proof.
  split; [|split; [|split; [|split]]].
  - intros id. unfold toggleSelectRow.
    destruct (decide (Some id ∈ sel)) as [Hin|Hin].
    + rewrite decide_False by set_solver.
      apply set_eq. intros x. rewrite elem_of_union, elem_of_difference, elem_of_singleton.
      destruct (decide (x = Some id)) as [->|]; naive_solver.
    + rewrite decide_True by set_solver. set_solver.
  - intros Hsize. unfold toggleSelectAll. rewrite decide_False by done.
    split; [set_solver|]. intros row Hrow.
    apply elem_of_union. right. apply elem_of_list_to_set, list_elem_of_fmap. eauto.
  - intros Hne Hnd. unfold toggleSelectAll at 2.
    rewrite decide_False by (rewrite size_empty; by destruct page).
    unfold toggleSelectAll. rewrite decide_True; [done|].
    rewrite (left_id_L ∅ (∪)), size_list_to_set by done. apply length_fmap.
  - intros row idx k Hk Hne Hin. unfold rowStatus, rowId. rewrite Hk.
    destruct k as [|c k]; [done|]. cbn [orElse].
    rewrite handleAuditAction_lookup, decide_True; [done|].
    apply elem_of_selectedIds. exists (Some (c :: k)). split; [by rewrite <- Hk | done].
  - intros k Hno. rewrite handleAuditAction_lookup, decide_False; [done|].
    intros (x & Hx & Hk)%elem_of_selectedIds. by apply (Hno x).
Qed.

(** ** The further properties at concrete data *)


(** X4 at the row of the example session. *)
Lemma processed_key_witness :
  @mapRow asciiHost plainMapping 0 (acmeRow (js "1") (js "33"))
    ∈ @processRows asciiHost [acmeRow (js "1") (js "33")] plainMapping
  /\ rowKey (@mapRow asciiHost plainMapping 0 (acmeRow (js "1") (js "33")))
     = Some (@normalizeRut asciiHost
               (@mapRow asciiHost plainMapping 0 (acmeRow (js "1") (js "33")) !! js "rut_val")
             ++ js "_"
             ++ normalizeInvoice
                  (@mapRow asciiHost plainMapping 0 (acmeRow (js "1") (js "33"))
                     !! js "factura_val")).
Proof.
  assert (Hin : @mapRow asciiHost plainMapping 0 (acmeRow (js "1") (js "33"))
                  ∈ @processRows asciiHost [acmeRow (js "1") (js "33")] plainMapping).
  { unfold processRows. cbn [imap List.filter].
    replace (@isValidDataRow asciiHost _ valMapping) with true by (by vm_compute).
    apply list_elem_of_here. }
  split; [exact Hin|].
  exact (proj1 (processed_key (H:=asciiHost) _ _ _ Hin)).
Defined.

(** X7 at invoice 100 against invoice 0100 of another supplier. *)
Lemma modal_candidate_other_rut_witness :
  let record := @mapRow asciiHost plainMapping 0 (ledgerRow (js "11.111.111-1") (js "100")) in
  let cand := @mapRow asciiHost plainMapping 0 (ledgerRow (js "22.222.222-2") (js "0100")) in
  let r := reconcile (@processRows asciiHost softland100 plainMapping)
                     (@processRows asciiHost control100 plainMapping) in
  record ∈ missingRecords r
  /\ candidate record (controlRecords r) = Some cand
  /\ @fieldMatch asciiHost record cand (js "rut_val") = false.
Proof.
  cbv zeta.
  assert (Hmiss : @mapRow asciiHost plainMapping 0 (ledgerRow (js "11.111.111-1") (js "100"))
            ∈ missingRecords (reconcile (@processRows asciiHost softland100 plainMapping)
                                        (@processRows asciiHost control100 plainMapping))).
  { replace (missingRecords _)
      with [@mapRow asciiHost plainMapping 0 (ledgerRow (js "11.111.111-1") (js "100"))]
      by (by vm_compute).
    apply list_elem_of_here. }
  assert (Hcand : candidate
            (@mapRow asciiHost plainMapping 0 (ledgerRow (js "11.111.111-1") (js "100")))
            (controlRecords (reconcile (@processRows asciiHost softland100 plainMapping)
                                       (@processRows asciiHost control100 plainMapping)))
            = Some (@mapRow asciiHost plainMapping 0
                      (ledgerRow (js "22.222.222-2") (js "0100"))))
    by (by vm_compute).
  split; [exact Hmiss|]. split; [exact Hcand|].
  exact (modal_candidate_other_rut (H:=asciiHost) softland100 control100
           plainMapping plainMapping _ _ Hmiss Hcand).
Defined.

(** X10 at one missing record, marked [failed]. *)
Lemma real_missing_counts_open_records_witness :
  let st : gmap jsstr AuditStatus := {[ js "111111111_100" := failed ]} in
  NoDup ((fun m => propKey (rowKey m))
           <$> missingRecords (reconcile [missing100] [control0100]))
  /\ realMissing (reconcile [missing100] [control0100]) st
     = Z.of_nat (length (List.filter (notFailed st)
                                     (missingRecords (reconcile [missing100] [control0100])))).
Proof.
  cbv zeta.
  assert (Hnd : NoDup ((fun m => propKey (rowKey m))
                         <$> missingRecords (reconcile [missing100] [control0100]))).
  { replace (missingRecords _) with [missing100] by (by vm_compute).
    apply NoDup_singleton. }
  split; [exact Hnd|].
  apply (real_missing_counts_open_records [missing100] [control0100]); [exact Hnd|].
  intros k [<- _]%lookup_singleton_Some. exists missing100.
  split; [|by vm_compute].
  replace (missingRecords _) with [missing100] by (by vm_compute).
  apply list_elem_of_here.
Defined.

(** X12 at 15 March 2024 in both formats. *)
Lemma month_key_of_both_formats_witness :
  monthYear march15iso = js "2024-03" /\ monthYear march15 = js "2024-03".
Proof.
  apply (month_key_of_both_formats march15iso march15 (js "2024") (js "03") (js "15"));
    try reflexivity.
  discriminate.
Defined.

(** X14 at the row of the example session, without a column for the
    invoice. *)
Lemma unmapped_field_keeps_nothing_witness :
  noFacturaMapping !! js "factura" = None
  /\ @processRows asciiHost [acmeRow (js "1") (js "33")] noFacturaMapping = [].
Proof.
  split; [reflexivity|].
  apply (unmapped_field_keeps_nothing (H:=asciiHost) _ _ (js "factura")).
  - apply list_elem_of_here.
  - reflexivity.
  - intros row ->%list_elem_of_singleton. reflexivity.
Defined.
